(** * Sales dashboard: the data-preparation pipeline of [src/app.py]

    The script loads [sales_data.csv] with pandas, renames five spaced
    headers, turns the two percentage columns from text into ratios, and then
    derives a region-filtered view, four KPIs, a top-5/bottom-5 ranking and a
    support list from the loaded frame.

    The load works on a frame of labelled, typed columns, as [read_csv] builds
    it; the dashboard reads the loaded frame row by row through its named
    columns.  Numbers are IEEE binary64 values (Rocq's primitive [float], the
    type of a Python float and of a pandas float64 cell), so NaN, pandas'
    missing value, and its comparisons behave as they do in the program.

    The pandas routines whose algorithm is not part of the repository are
    parameters: the text-to-float conversion of [astype(float)], the
    reductions [Series.sum] and [Series.mean], and the ordering computed by
    [sort_values], of which only the documented promise is used.  Instances
    of the conversion, of the sum and of the ordering are given, so that the
    definitions run on the examples. *)

From Stdlib Require Import List String Ascii ZArith Lia Bool Floats.
From Stdlib Require Import Permutation Sorted.
From Stdlib Require Uint63.
From Stdlib Require OrderedTypeEx.
Import ListNotations.

Set Warnings "-inexact-float".

Local Open Scope string_scope.
Local Open Scope list_scope.

(* ================================================================== *)
(** ** Exceptions and results *)

(** The Python exceptions that the load step can meet. *)
Inductive exn : Type :=
| FileNotFoundError
| PermissionError
| IsADirectoryError
| EmptyDataError
| ParserError
| UnicodeDecodeError
| ValueError
| AttributeError.

(** A computation that returns a value or raises. *)
Inductive result (A : Type) : Type :=
| Ok (a : A)
| Raise (e : exn).

Arguments Ok {A} a.
Arguments Raise {A} e.

Definition bind {A B : Type} (r : result A) (k : A -> result B) : result B :=
  match r with
  | Ok a => k a
  | Raise e => Raise e
  end.

Notation "x <- r ;; k" := (bind r (fun x => k))
  (at level 61, r at next level, right associativity).

(** [try: ... except FileNotFoundError:] catches this exception and no other. *)
Definition is_FileNotFoundError (e : exn) : bool :=
  match e with
  | FileNotFoundError => true
  | _ => false
  end.

(* ================================================================== *)
(** ** Series and frames as [pd.read_csv] builds them *)

(** A column.  A text column has dtype [object]; its cells are Python strings,
    [None] standing for a missing cell (pandas stores NaN there).  The other
    dtypes are numeric. *)
Inductive Series : Type :=
| ObjectSeries (cells : list (option string))
| Float64Series (cells : list float)
| Int64Series (cells : list Z)
| BoolSeries (cells : list bool).

Inductive dtype : Type := object | float64 | int64 | bool_.

Definition dtype_of (s : Series) : dtype :=
  match s with
  | ObjectSeries _ => object
  | Float64Series _ => float64
  | Int64Series _ => int64
  | BoolSeries _ => bool_
  end.

Definition size (s : Series) : nat :=
  match s with
  | ObjectSeries l => List.length l
  | Float64Series l => List.length l
  | Int64Series l => List.length l
  | BoolSeries l => List.length l
  end.

(** A frame: the row labels, in row order, and the labelled columns, in
    column order.  Every column holds one cell per row label. *)
Record DataFrame : Type := mkDataFrame {
  index : list nat;
  data : list (string * Series)
}.

(** [df.columns] *)
Definition columns (df : DataFrame) : list string := map fst (data df).

(** [len(df)] *)
Definition len (df : DataFrame) : nat := List.length (index df).

(** [pd.DataFrame()] *)
Definition empty_frame : DataFrame := mkDataFrame [] [].

(** [df.empty]: some axis has length zero. *)
Definition empty (df : DataFrame) : bool :=
  (List.length (columns df) =? 0)%nat || (len df =? 0)%nat.

(** [col in df.columns] *)
Definition has_column (col : string) (df : DataFrame) : bool :=
  existsb (String.eqb col) (columns df).

(** [df[col]]: every column carrying the label (one Series when the label is
    unique, a frame of several otherwise). *)
Definition getitem (col : string) (df : DataFrame) : list Series :=
  map snd (filter (fun c => String.eqb (fst c) col) (data df)).

(** [df[col] = s] for a label already present: the column is replaced where
    it stands. *)
Definition setitem (col : string) (s : Series) (df : DataFrame) : DataFrame :=
  mkDataFrame (index df)
    (map (fun c => if String.eqb (fst c) col then (fst c, s) else c) (data df)).

(** [dict.get(name, name)] on the mapper of [df.rename(columns=...)]. *)
Fixpoint rename_label (mapper : list (string * string)) (name : string) : string :=
  match mapper with
  | [] => name
  | (old, new) :: rest =>
      if String.eqb name old then new else rename_label rest name
  end.

(** [df.rename(columns=mapper)]: labels go through the mapper, the cells and
    the row labels are kept. *)
Definition rename (mapper : list (string * string)) (df : DataFrame) : DataFrame :=
  mkDataFrame (index df)
    (map (fun c => (rename_label mapper (fst c), snd c)) (data df)).

(** [s.replace(pat, repl)] for a one-character pattern: every occurrence. *)
Fixpoint str_replace (pat : ascii) (repl : string) (s : string) : string :=
  match s with
  | EmptyString => EmptyString
  | String c rest =>
      if Ascii.eqb c pat then repl ++ str_replace pat repl rest
      else String c (str_replace pat repl rest)
  end.

(** [Series.str.replace(pat, repl)]: cell by cell, a missing cell stays
    missing. *)
Definition Series_str_replace (pat : ascii) (repl : string)
  (cells : list (option string)) : list (option string) :=
  map (option_map (str_replace pat repl)) cells.

(* ================================================================== *)
(** ** [load_data] (lines 15-40) *)

Section LoadData.

(** [float(s)] as [astype(float)] applies it to a text cell: [None] when
    Python raises [ValueError]. *)
Variable float_of_str : string -> option float.

(** [astype(float)] on the cells of an object column: the first cell that
    does not convert raises; a missing cell is NaN. *)
Fixpoint astype_float (cells : list (option string)) : result (list float) :=
  match cells with
  | [] => Ok []
  | None :: rest => xs <- astype_float rest ;; Ok (nan :: xs)
  | Some s :: rest =>
      match float_of_str s with
      | None => Raise ValueError
      | Some x => xs <- astype_float rest ;; Ok (x :: xs)
      end
  end.

(** [... / 100] on a float column. *)
Definition div_100 (xs : list float) : list float :=
  map (fun x => (x / 100)%float) xs.

(** The mapper of lines 26-32. *)
Definition column_names : list (string * string) :=
  [ ("Emp Code", "Emp_Code");
    ("Sales Executive", "Sales_Executive");
    ("Total Sales", "Total_Sales");
    ("Target Hit %", "Target_Hit_Pct");
    ("Away From Target %", "Away_From_Target_Pct") ].

(** The labels the loop of line 35 visits. *)
Definition pct_columns : list string :=
  [ "Target_Hit_Pct"; "Away_From_Target_Pct" ].

(** Lines 36-38, one pass of the loop.  The test [df[col].dtype == 'object']
    holds of an [ObjectSeries] and of no other Series; [df[col].dtype] raises
    [AttributeError] when the label is carried by several columns, since
    [df[col]] is then a frame. *)
Definition convert_pct (col : string) (df : DataFrame) : result DataFrame :=
  if has_column col df then
    match getitem col df with
    | [ObjectSeries cells] =>
        xs <- astype_float (Series_str_replace "%" "" cells) ;;
        Ok (setitem col (Float64Series (div_100 xs)) df)
    | [_] => Ok df
    | _ => Raise AttributeError
    end
  else Ok df.

(** The loop of lines 35-38. *)
Fixpoint convert_all (cols : list string) (df : DataFrame) : result DataFrame :=
  match cols with
  | [] => Ok df
  | col :: rest => df' <- convert_pct col df ;; convert_all rest df'
  end.

(** The message of line 21. *)
Definition not_found_message : string :=
  "Error: 'sales_data.csv' not found. Please ensure the data file is committed to your GitHub repository.".

(** [load_data], given what [pd.read_csv('sales_data.csv')] did.  The first
    component lists the messages passed to [st.error]. *)
Definition load_data (read_csv : result DataFrame) : list string * result DataFrame :=
  match read_csv with
  | Raise e =>
      if is_FileNotFoundError e then ([not_found_message], Ok empty_frame)
      else ([], Raise e)
  | Ok df => ([], convert_all pct_columns (rename column_names df))
  end.

(** How a run of the script ends (lines 43-47 decide): an uncaught exception,
    [st.stop()], or the dashboard code of lines 49-185 run on the frame. *)
Inductive outcome : Type :=
| Crashed (e : exn)
| Stopped (shown : list string)
| Dashboard (shown : list string) (df : DataFrame).

Definition script (read_csv : result DataFrame) : outcome :=
  match load_data read_csv with
  | (_, Raise e) => Crashed e
  | (shown, Ok df) => if empty df then Stopped shown else Dashboard shown df
  end.

End LoadData.

(* ================================================================== *)
(** ** The loaded table as the dashboard reads it (lines 49-163) *)

(** One row of the loaded frame, through the columns the dashboard reads: its
    row label, the text columns ([None] is a missing cell) and the numeric
    columns after [load_data] (NaN is a missing cell; a column read as int64
    holds the same numbers). *)
Record Row : Type := mkRow {
  label : nat;
  Emp_Code : option string;
  Sales_Executive : option string;
  Region : option string;
  Total_Sales : float;
  Target : float;
  Target_Hit_Pct : float;
  Away_From_Target_Pct : float
}.

(** A table, in row order. *)
Definition Table : Type := list Row.

(** Python's [x in l] on a list of strings. *)
Definition contains (x : string) (l : list string) : bool :=
  existsb (String.eqb x) l.

(** [Series.isin(values)] on one cell of a text column; a missing cell is in
    no list of strings. *)
Definition isin (values : list string) (cell : option string) : bool :=
  match cell with
  | Some s => contains s values
  | None => false
  end.

(** [df[mask]]: the rows where the mask holds, in their order. *)
Definition where_ (mask : Row -> bool) (df : Table) : Table := filter mask df.

(** [Series.dropna()] on a text column. *)
Fixpoint dropna (cells : list (option string)) : list string :=
  match cells with
  | [] => []
  | Some s :: rest => s :: dropna rest
  | None :: rest => dropna rest
  end.

(** [Series.nunique()]: the number of distinct values, missing cells left
    out. *)
Definition nunique (cells : list (option string)) : nat :=
  List.length (nodup string_dec (dropna cells)).

(** [df.head(n)] and [df.tail(n)] *)
Definition head (n : nat) (df : Table) : Table := firstn n df.
Definition tail (n : nat) (df : Table) : Table := skipn (List.length df - n) df.

(** [x] stands before [y], or ties with it, in the requested direction. *)
Definition in_order (ascending : bool) (x y : float) : Prop :=
  if ascending then (x <=? y)%float = true else (y <=? x)%float = true.

(** What [df.sort_values(by=key, ascending=...)] promises about its result
    [out]: the same rows; those with a key first, in the requested order;
    those whose key is NaN last ([na_position='last']).  The order among
    equal keys is the algorithm's own (the default is not stable). *)
Definition sort_values_spec (key : Row -> float) (ascending : bool)
  (df out : Table) : Prop :=
  Permutation df out /\
  exists present missing,
    out = present ++ missing /\
    Forall (fun r => is_nan (key r) = false) present /\
    Forall (fun r => is_nan (key r) = true) missing /\
    StronglySorted (fun a b => in_order ascending (key a) (key b)) present.

(** The sentinel of the region selector (line 54). *)
Definition All_Regions : string := "All Regions".

Section Dashboard.

(** [Series.sum()] and [Series.mean()] of a float column. *)
Variable Series_sum : list float -> float.
Variable Series_mean : list float -> float.

(** [df.sort_values(by=key, ascending=...)] *)
Variable sort_values : (Row -> float) -> bool -> Table -> Table.

(** Lines 74-77. *)
Definition df_filtered (df : Table) (selected_states : list string) : Table :=
  if negb (contains All_Regions selected_states)
  then where_ (fun r => isin selected_states (Region r)) df
  else df.

(** Lines 89-92. *)
Definition total_sales (df_filtered : Table) : float :=
  Series_sum (map Total_Sales df_filtered).

Definition avg_target_hit (df_filtered : Table) : float :=
  (Series_mean (map Target_Hit_Pct df_filtered) * 100)%float.

Definition total_salesmen (df_filtered : Table) : nat :=
  nunique (map Emp_Code df_filtered).

Definition target_achieved_count (df_filtered : Table) : nat :=
  List.length (where_ (fun r => (1 <=? Target_Hit_Pct r)%float) df_filtered).

(** Lines 114-117. *)
Definition salesmen_rank (df_filtered : Table) : Table :=
  sort_values Total_Sales false df_filtered.

Definition top_5 (df_filtered : Table) : Table :=
  head 5 (salesmen_rank df_filtered).

Definition bottom_5 (df_filtered : Table) : Table :=
  tail 5 (salesmen_rank df_filtered).

(** Line 163. *)
Definition df_support (df_filtered : Table) (target_threshold : float) : Table :=
  sort_values Target_Hit_Pct true
    (where_ (fun r => (Target_Hit_Pct r <? target_threshold)%float) df_filtered).

End Dashboard.

(** The rows the region selection keeps, said row by row: all of them under
    the sentinel, otherwise those whose region is selected. *)
Definition region_predicate (selected_states : list string) (r : Row) : bool :=
  contains All_Regions selected_states || isin selected_states (Region r).

(** [key x] ranks at or before [key y] in a descending ordering that puts
    NaN last. *)
Definition ranks_before (x y : float) : bool :=
  is_nan y || (negb (is_nan x) && (y <=? x)%float).

(* ================================================================== *)
(** ** The rest of the dashboard (lines 54, 120, 140-154, 165-179) *)

(** Equality of two cells of a text column; two missing cells are the same
    value to [unique] and [groupby]. *)
Definition cell_eqb (a b : option string) : bool :=
  match a, b with
  | Some x, Some y => String.eqb x y
  | None, None => true
  | _, _ => false
  end.

(** [Series.unique()]: the distinct cells, each at its first occurrence. *)
Fixpoint unique (cells : list (option string)) : list (option string) :=
  match cells with
  | [] => []
  | c :: rest => c :: filter (fun d => negb (cell_eqb c d)) (unique rest)
  end.

(** Insertion into a list of strings in ascending order. *)
Fixpoint insert_str (s : string) (l : list string) : list string :=
  match l with
  | [] => [s]
  | x :: rest => if String.leb s x then s :: l else x :: insert_str s rest
  end.

(** Python's [sorted] on a list of strings: ascending by code point, which
    is the byte order [String.leb] compares by. *)
Definition sorted_str (l : list string) : list string :=
  fold_right insert_str [] l.

(** Python's [sorted] on the cells [unique] returns.  Comparing a string with
    NaN raises [TypeError], and sorting two or more values compares each of
    them: [None] is that exception.  A single value is returned as it is. *)
Definition sorted (cells : list (option string)) : option (list (option string)) :=
  if forallb (fun c => match c with Some _ => true | None => false end) cells
  then Some (map Some (sorted_str (dropna cells)))
  else if (List.length cells <=? 1)%nat then Some cells
  else None.

(** Line 54: the options of the region selector, computed from the loaded
    table. *)
Definition all_states (df : Table) : option (list (option string)) :=
  option_map (cons (Some All_Regions)) (sorted (unique (map Region df))).

(** One row of [region_agg] (lines 140-143). *)
Module RegionAgg.
Record row : Type := mk {
  Region : string;
  Avg_Target_Hit : float;
  Total_Sales : float
}.
End RegionAgg.

(** [df.groupby('Region')]: one group per distinct region, the groups in
    ascending order of the region ([sort=True]), rows whose region is missing
    in no group ([dropna=True]); a group holds its rows in table order. *)
Definition groupby_Region (df : Table) : list (string * Table) :=
  map (fun k => (k, where_ (fun r => cell_eqb (Region r) (Some k)) df))
    (sorted_str (dropna (unique (map Region df)))).

(** What [sort_values(by=key, ascending=...)] promises, for rows of any
    kind; [sort_values_spec] is this promise on a [Table]. *)
Definition sort_promise {A : Type} (key : A -> float) (ascending : bool)
  (l out : list A) : Prop :=
  Permutation l out /\
  exists present missing,
    out = present ++ missing /\
    Forall (fun r => is_nan (key r) = false) present /\
    Forall (fun r => is_nan (key r) = true) missing /\
    StronglySorted (fun a b => in_order ascending (key a) (key b)) present.

(** Line 154: the colour computed from one average. *)
Definition bar_color (x : float) : string :=
  if (1 <=? x)%float then "green" else "red".




Section Charts.

(** [df.sort_values(by=key, ascending=...)] on the loaded table and on
    [region_agg]. *)
Variable sort_values : (Row -> float) -> bool -> Table -> Table.
Variable sort_values_agg :
  (RegionAgg.row -> float) -> bool -> list RegionAgg.row -> list RegionAgg.row.

(** The [mean] and [sum] of a group, as [GroupBy.agg] computes them. *)
Variable GroupBy_mean : list float -> float.
Variable GroupBy_sum : list float -> float.

(** Line 120: [pd.concat([top_5, bottom_5])]. *)
Definition top_bottom_df (df_filtered : Table) : Table :=
  top_5 sort_values df_filtered ++ bottom_5 sort_values df_filtered.

(** Lines 140-143. *)
Definition region_agg (df_filtered : Table) : list RegionAgg.row :=
  map (fun g =>
         RegionAgg.mk (fst g)
           (GroupBy_mean (map Target_Hit_Pct (snd g)))
           (GroupBy_sum (map Total_Sales (snd g))))
    (groupby_Region df_filtered).

(** Line 146: the frame handed to [px.bar]. *)
Definition fig_region_rows (df_filtered : Table) : list RegionAgg.row :=
  sort_values_agg RegionAgg.Avg_Target_Hit false (region_agg df_filtered).

(** Line 154: the colours handed to [update_traces], one per row of
    [region_agg], in its order. *)
Definition marker_color (df_filtered : Table) : list string :=
  map (fun x => bar_color x)
    (map RegionAgg.Avg_Target_Hit (region_agg df_filtered)).


End Charts.

(** An instance of [sort_values] on rows of any kind: insertion sort of the
    rows with a key, rows without one appended. *)
Fixpoint insert_key {A : Type} (key : A -> float) (ascending : bool)
  (r : A) (l : list A) : list A :=
  match l with
  | [] => [r]
  | x :: rest =>
      if (if ascending then key r <=? key x else key x <=? key r)%float
      then r :: l
      else x :: insert_key key ascending r rest
  end.

Definition insertion_sort_key {A : Type} (key : A -> float) (ascending : bool)
  (l : list A) : list A :=
  fold_right (insert_key key ascending) []
    (filter (fun r => negb (is_nan (key r))) l)
  ++ filter (fun r => is_nan (key r)) l.

(* ================================================================== *)
(** ** Instances of the parameters, for running the definitions *)

(** The value of a decimal digit. *)
Definition digit_of (c : ascii) : option Z :=
  let n := Z.of_N (N_of_ascii c) in
  if ((48 <=? n) && (n <=? 57))%Z then Some (n - 48)%Z else None.

(** The number a run of digits writes, after the digits already read. *)
Fixpoint digits_of (s : string) (acc : Z) : option Z :=
  match s with
  | EmptyString => Some acc
  | String c rest =>
      match digit_of c with
      | Some d => digits_of rest (10 * acc + d)%Z
      | None => None
      end
  end.

(** The text before the first ['.'] and the text after it. *)
Fixpoint split_dot (s : string) : string * string :=
  match s with
  | EmptyString => (EmptyString, EmptyString)
  | String c rest =>
      if Ascii.eqb c "." then (EmptyString, rest)
      else let (a, b) := split_dot rest in (String c a, b)
  end.

(** The float nearest to an integer [0 <= z < 2^63]. *)
Definition float_of_Z (z : Z) : float := PrimFloat.of_uint63 (Uint63.of_Z z).

(** An instance of [float_of_str]: Python's [float(s)] on unsigned plain
    decimals, digits with at most one point.  With at most 15 digits the
    quotient of the two exact integers is the correctly rounded value, which
    is what Python returns.  Every other text is refused here; Python refuses
    in particular every text that holds a ['%']. *)
Definition decimal_float (s : string) : option float :=
  let (ip, fp) := split_dot s in
  if ((String.length ip + String.length fp =? 0) || (15 <? String.length ip + String.length fp))%nat
  then None
  else
    match digits_of ip 0, digits_of fp 0 with
    | Some a, Some b =>
        let k := (10 ^ Z.of_nat (String.length fp))%Z in
        Some (float_of_Z (a * k + b) / float_of_Z k)%float
    | _, _ => None
    end.

(** Insertion of a row into a list ordered by [key]. *)
Fixpoint insert_by (key : Row -> float) (ascending : bool) (r : Row) (l : Table) : Table :=
  match l with
  | [] => [r]
  | x :: rest =>
      if (if ascending then key r <=? key x else key x <=? key r)%float
      then r :: l
      else x :: insert_by key ascending r rest
  end.

(** An instance of [sort_values]: insertion sort of the rows with a key,
    rows without one appended. *)
Definition insertion_sort_values (key : Row -> float) (ascending : bool) (df : Table) : Table :=
  fold_right (insert_by key ascending) [] (filter (fun r => negb (is_nan (key r))) df)
  ++ filter (fun r => is_nan (key r)) df.

(** An instance of [Series_sum]: the left-to-right sum of the cells that are
    not NaN ([skipna=True]). *)
Definition sum_left (xs : list float) : float :=
  fold_left (fun acc x => if is_nan x then acc else (acc + x)%float) xs 0%float.

(** The one-row source of the specification's example, as [read_csv] reads
    it: integer amounts, percentages as text. *)
Definition example_source : DataFrame :=
  mkDataFrame [0%nat]
    [ ("Emp Code", ObjectSeries [Some "E1"]);
      ("Sales Executive", ObjectSeries [Some "A"]);
      ("Region", ObjectSeries [Some "North"]);
      ("Total Sales", Int64Series [1000%Z]);
      ("Target", Int64Series [2000%Z]);
      ("Target Hit %", ObjectSeries [Some "50.00%"]);
      ("Away From Target %", ObjectSeries [Some "50.00%"]) ].

(** What [load_data] returns for it. *)
Definition example_loaded : DataFrame :=
  mkDataFrame [0%nat]
    [ ("Emp_Code", ObjectSeries [Some "E1"]);
      ("Sales_Executive", ObjectSeries [Some "A"]);
      ("Region", ObjectSeries [Some "North"]);
      ("Total_Sales", Int64Series [1000%Z]);
      ("Target", Int64Series [2000%Z]);
      ("Target_Hit_Pct", Float64Series [0.5%float]);
      ("Away_From_Target_Pct", Float64Series [0.5%float]) ].

(** A source whose first percentage cell has its ['%'] in the middle and whose
    second percentage column is already numeric. *)
Definition inner_pct_source : DataFrame :=
  mkDataFrame [0%nat]
    [ ("Region", ObjectSeries [Some "North"]);
      ("Target Hit %", ObjectSeries [Some "5%0"]);
      ("Away From Target %", Float64Series [0.5%float]) ].

Definition inner_pct_loaded : DataFrame :=
  mkDataFrame [0%nat]
    [ ("Region", ObjectSeries [Some "North"]);
      ("Target_Hit_Pct", Float64Series [0.5%float]);
      ("Away_From_Target_Pct", Float64Series [0.5%float]) ].

(** Ten loaded rows over three regions; the salesman [E2] appears twice and
    the last row but one has no target-hit ratio. *)
Definition example_table : Table :=
  [
    mkRow 0 (Some "E1") (Some "A") (Some "North") 1000 2000 0.5 0.5;
    mkRow 1 (Some "E2") (Some "B") (Some "South") 5200 4000 1.3 0;
    mkRow 2 (Some "E3") (Some "C") (Some "North") 3100 3100 1 0;
    mkRow 3 (Some "E4") (Some "D") (Some "East") 800 2000 0.4 0.6;
    mkRow 4 (Some "E5") (Some "E") (Some "South") 4500 5000 0.9 0.1;
    mkRow 5 (Some "E6") (Some "F") (Some "East") 2750 5000 0.55 0.45;
    mkRow 6 (Some "E7") (Some "G") (Some "North") 6000 4000 1.5 0;
    mkRow 7 (Some "E8") (Some "H") (Some "South") 1500 6000 0.25 0.75;
    mkRow 8 (Some "E9") (Some "I") (Some "East") 3900 3000 nan nan;
    mkRow 9 (Some "E2") (Some "B") (Some "North") 2200 4000 0.55 0.45
  ]%float.

(** An instance of [Series_mean] and [GroupBy_mean]: the sum of the cells
    that are not NaN over their number. *)
Definition mean_left (xs : list float) : float :=
  (sum_left xs
   / float_of_Z (Z.of_nat (List.length (filter (fun x => negb (is_nan x)) xs))))%float.


(** A source that carries the first percentage column under both of its
    names. *)
Definition clash_source : DataFrame :=
  mkDataFrame [0%nat]
    [ ("Region", ObjectSeries [Some "North"]);
      ("Target Hit %", ObjectSeries [Some "50.00%"]);
      ("Target_Hit_Pct", Float64Series [0.5%float]) ].

(** Two regions of one row each, the second in name order being the one
    that meets its target. *)
Definition two_region_table : Table :=
  [ mkRow 0 (Some "E1") (Some "A") (Some "East") 1000 2000 0.5 0.5;
    mkRow 1 (Some "E2") (Some "B") (Some "North") 2400 2000 1.2 0 ]%float.

(* ================================================================== *)
(** ** Vocabulary of the statements *)

(** The five headers the mapper knows. *)
Definition spaced_headers : list string := map fst column_names.

(** What lines 36-38 make of one cell of a text percentage column: every
    ['%'] removed, the rest converted by [float], the value divided by 100;
    a missing cell stays NaN. *)
Definition ratio_of_cell (float_of_str : string -> option float)
  (cell : option string) (x : float) : Prop :=
  match cell with
  | Some s =>
      exists y, float_of_str (str_replace "%" "" s) = Some y /\ x = (y / 100)%float
  | None => x = nan
  end.

(** A column of the source and the column the load returns in its place: the
    same Series, or a text column turned cell by cell into ratios. *)
Definition column_kept (float_of_str : string -> option float)
  (old new : Series) : Prop :=
  new = old \/
  exists cells xs,
    old = ObjectSeries cells /\ new = Float64Series xs /\
    Forall2 (ratio_of_cell float_of_str) cells xs.

(** What one pass of the loop of lines 35-38 does to a frame when it does not
    raise: row labels and column labels stay, every column is kept in the
    sense of [column_kept], columns under another label are untouched, and
    the column under [col] is converted when it is text. *)
Definition pass_of (float_of_str : string -> option float)
  (col : string) (df df' : DataFrame) : Prop :=
  index df' = index df /\
  columns df' = columns df /\
  Forall2 (column_kept float_of_str) (map snd (data df)) (map snd (data df')) /\
  (forall col', col' <> col -> getitem col' df' = getitem col' df) /\
  (forall s,
      In s (getitem col df) ->
      match s with
      | ObjectSeries cells =>
          exists xs,
            astype_float float_of_str (Series_str_replace "%" "" cells) = Ok xs /\
            getitem col df' = [Float64Series (div_100 xs)]
      | _ => getitem col df' = [s]
      end).

(** What [df[col]] must be for a pass of the loop to finish: at most one
    column, and when it is text each of its cells converts once its ['%']
    signs are removed. *)
Definition convertible (float_of_str : string -> option float)
  (selected : list Series) : Prop :=
  match selected with
  | [] => True
  | [ObjectSeries cells] =>
      Forall
        (fun cell =>
           match cell with
           | Some s => exists y, float_of_str (str_replace "%" "" s) = Some y
           | None => True
           end)
        cells
  | [_] => True
  | _ :: _ :: _ => False
  end.

(** A source the load can finish on. *)
Definition loadable (float_of_str : string -> option float)
  (df : DataFrame) : Prop :=
  forall col,
    In col pct_columns ->
    convertible float_of_str (getitem col (rename column_names df)).

(** The text step as the specification words it: a trailing ['%'] is
    stripped, the rest of the text is left as it is.  [str_replace], which
    the program calls, is compared with it. *)
Fixpoint strip_trailing_pct (s : string) : string :=
  match s with
  | EmptyString => EmptyString
  | String c EmptyString => if Ascii.eqb c "%" then EmptyString else s
  | String c rest => String c (strip_trailing_pct rest)
  end.

(** The text holds a ['%']. *)
Fixpoint has_pct (s : string) : bool :=
  match s with
  | EmptyString => false
  | String c rest => Ascii.eqb c "%" || has_pct rest
  end.

(** A non-NaN float as a triple of integers whose lexicographic order is the
    order of the floats: the sign class first (negative infinity, negative,
    zero, positive, positive infinity), then exponent and mantissa, both
    negated for a negative float. *)
Definition sf_key (f : spec_float) : Z * Z * Z :=
  match f with
  | S754_nan => (3, 0, 0)
  | S754_infinity true => (-2, 0, 0)
  | S754_infinity false => (2, 0, 0)
  | S754_zero _ => (0, 0, 0)
  | S754_finite true m e => (-1, - e, - Z.pos m)
  | S754_finite false m e => (1, e, Z.pos m)
  end%Z.

(** The lexicographic order on such triples. *)
Definition lex_le (a b : Z * Z * Z) : Prop :=
  let '(a1, a2, a3) := a in
  let '(b1, b2, b3) := b in
  (a1 < b1 \/ (a1 = b1 /\ (a2 < b2 \/ (a2 = b2 /\ a3 <= b3))))%Z.

(** The number of rows on which a mask holds. *)
Fixpoint count_rows (mask : Row -> bool) (df : Table) : nat :=
  match df with
  | [] => 0
  | r :: rest => (if mask r then 1 else 0) + count_rows mask rest
  end.

(* ================================================================== *)
(** ** Renaming (lines 26-32) *)

Lemma rename_label_fixed (name : string) :
  ~ In name spaced_headers -> rename_label column_names name = name.
Proof.
  unfold spaced_headers, column_names. cbn [map fst rename_label In].
  intros H.
  repeat match goal with
  | |- context [String.eqb name ?k] =>
      destruct (String.eqb_spec name k) as [E | _];
      [ exfalso; apply H; rewrite E; tauto | ]
  end.
  reflexivity.
Qed.

Lemma rename_label_known (name : string) :
  In name spaced_headers ->
  In (rename_label column_names name) (map snd column_names).
Proof.
  unfold spaced_headers, column_names. cbn [map fst snd In].
  intros H.
  repeat (destruct H as [H | H]; [ subst name; vm_compute; tauto | ]).
  contradiction.
Qed.

Lemma spaced_headers_dec (name : string) :
  In name spaced_headers \/ ~ In name spaced_headers.
Proof.
  destruct (in_dec string_dec name spaced_headers); [left | right]; assumption.
Qed.

Lemma rename_label_idempotent (name : string) :
  rename_label column_names (rename_label column_names name)
  = rename_label column_names name.
Proof.
  destruct (spaced_headers_dec name) as [H | H].
  - apply rename_label_known in H.
    unfold column_names in H at 2. cbn [map snd In] in H.
    repeat (destruct H as [H | H]; [ rewrite <- H; reflexivity | ]).
    contradiction.
  - rewrite (rename_label_fixed name H). apply rename_label_fixed, H.
Qed.

Lemma rename_data (mapper : list (string * string)) (df : DataFrame) :
  columns (rename mapper df) = map (rename_label mapper) (columns df) /\
  map snd (data (rename mapper df)) = map snd (data df) /\
  index (rename mapper df) = index df.
Proof.
  unfold columns, rename. cbn [data index].
  rewrite !map_map. cbn [fst snd]. repeat split; reflexivity.
Qed.

(** C7.  The mapper sends the five spaced headers ['Emp Code'],
    ['Sales Executive'], ['Total Sales'], ['Target Hit %'] and
    ['Away From Target %'] to the underscore-joined names the program uses
    (['Emp_Code'], ['Sales_Executive'], ['Total_Sales'], ['Target_Hit_Pct'],
    ['Away_From_Target_Pct']; the specification writes them in lower case),
    these five are the only labels it knows, and in every table every other
    label passes through unchanged, with the cells and row labels of all
    columns kept. *)
Theorem rename_maps_exactly_five_headers :
  rename_label column_names "Emp Code" = "Emp_Code" /\
  rename_label column_names "Sales Executive" = "Sales_Executive" /\
  rename_label column_names "Total Sales" = "Total_Sales" /\
  rename_label column_names "Target Hit %" = "Target_Hit_Pct" /\
  rename_label column_names "Away From Target %" = "Away_From_Target_Pct" /\
  spaced_headers =
    [ "Emp Code"; "Sales Executive"; "Total Sales"; "Target Hit %";
      "Away From Target %" ] /\
  (forall name,
      ~ In name spaced_headers -> rename_label column_names name = name) /\
  (forall df,
      columns (rename column_names df)
      = map (rename_label column_names) (columns df) /\
      map snd (data (rename column_names df)) = map snd (data df) /\
      index (rename column_names df) = index df).
Proof.
  repeat (split; [ reflexivity | ]).
  split.
  - exact rename_label_fixed.
  - intros df. apply rename_data.
Qed.

(** C9.  Renaming is idempotent: on every table, applying the mapper twice
    gives the same table, hence the same column labels, as applying it
    once. *)
Theorem rename_idempotent (df : DataFrame) :
  rename column_names (rename column_names df) = rename column_names df /\
  columns (rename column_names (rename column_names df))
  = columns (rename column_names df).
Proof.
  assert (E : rename column_names (rename column_names df)
              = rename column_names df).
  { unfold rename. cbn [index data]. f_equal.
    rewrite map_map. apply map_ext. intros [l s]. cbn [fst snd].
    now rewrite rename_label_idempotent. }
  split; [ exact E | now rewrite E ].
Qed.

(* ================================================================== *)
(** ** The percentage columns and the load (lines 18-40) *)

Lemma Forall2_compose {A : Type} (R : A -> A -> Prop) (l1 l2 l3 : list A) :
  (forall a b c, R a b -> R b c -> R a c) ->
  Forall2 R l1 l2 -> Forall2 R l2 l3 -> Forall2 R l1 l3.
Proof.
  intros HR H12. revert l3.
  induction H12 as [| a b l1 l2 Hab _ IH]; intros l3 H23.
  - inversion H23. constructor.
  - inversion H23 as [| b' c l2' l3' Hbc H23' ]; subst.
    constructor; [ eapply HR; eassumption | apply IH; assumption ].
Qed.

Lemma getitem_In (col : string) (df : DataFrame) (c : string * Series) :
  In c (data df) -> String.eqb (fst c) col = true -> In (snd c) (getitem col df).
Proof.
  intros Hc E. unfold getitem. apply in_map, filter_In. split; assumption.
Qed.

Lemma has_column_false (col : string) (df : DataFrame) :
  has_column col df = false -> getitem col df = [].
Proof.
  unfold has_column, columns, getitem. induction (data df) as [| c l IH].
  - reflexivity.
  - cbn [map existsb filter]. rewrite (String.eqb_sym col (fst c)).
    destruct (String.eqb (fst c) col); cbn [orb]; [ discriminate | exact IH ].
Qed.

Lemma getitem_setitem_same (col : string) (s : Series) (df : DataFrame) :
  getitem col (setitem col s df) = map (fun _ => s) (getitem col df).
Proof.
  unfold getitem, setitem. cbn [data]. induction (data df) as [| c l IH].
  - reflexivity.
  - cbn [map filter]. destruct (String.eqb (fst c) col) eqn:E.
    + cbn [fst]. rewrite E. cbn [map snd]. now rewrite IH.
    + rewrite E. exact IH.
Qed.

Lemma getitem_setitem_other (col col' : string) (s : Series) (df : DataFrame) :
  col' <> col -> getitem col' (setitem col s df) = getitem col' df.
Proof.
  intros N. unfold getitem, setitem. cbn [data]. induction (data df) as [| c l IH].
  - reflexivity.
  - cbn [map filter]. destruct (String.eqb_spec (fst c) col) as [E | E].
    + cbn [fst]. destruct (String.eqb_spec (fst c) col') as [E' | _].
      * exfalso. apply N. now rewrite <- E, <- E'.
      * exact IH.
    + destruct (String.eqb (fst c) col'); [ cbn [map]; now rewrite IH | exact IH ].
Qed.

Lemma columns_setitem (col : string) (s : Series) (df : DataFrame) :
  columns (setitem col s df) = columns df.
Proof.
  unfold columns, setitem. cbn [data]. rewrite map_map. apply map_ext.
  intros c. now destruct (String.eqb (fst c) col).
Qed.

Section LoadDataFacts.

Variable float_of_str : string -> option float.

Lemma astype_float_raises (cells : list (option string)) (e : exn) :
  astype_float float_of_str cells = Raise e -> e = ValueError.
Proof.
  revert e. induction cells as [| [s |] rest IH]; intros e; cbn [astype_float].
  - discriminate.
  - destruct (float_of_str s); [ | now inversion 1 ].
    destruct (astype_float float_of_str rest); cbn [bind];
      [ discriminate | intros H; inversion H; subst; now apply IH ].
  - destruct (astype_float float_of_str rest); cbn [bind];
      [ discriminate | intros H; inversion H; subst; now apply IH ].
Qed.

Lemma astype_float_ratio (cells : list (option string)) (xs : list float) :
  astype_float float_of_str (Series_str_replace "%" "" cells) = Ok xs ->
  Forall2 (ratio_of_cell float_of_str) cells (div_100 xs).
Proof.
  revert xs. unfold Series_str_replace.
  induction cells as [| [s |] rest IH]; intros xs;
    cbn [map option_map astype_float].
  - intros H. inversion H. constructor.
  - destruct (float_of_str (str_replace "%" "" s)) as [y |] eqn:F; [ | discriminate ].
    destruct (astype_float float_of_str
                (map (option_map (str_replace "%" "")) rest)) as [ys | e];
      cbn [bind]; [ | discriminate ].
    intros H. inversion H; subst. cbn [div_100 map]. constructor.
    + exists y. split; [ exact F | reflexivity ].
    + now apply IH.
  - destruct (astype_float float_of_str
                (map (option_map (str_replace "%" "")) rest)) as [ys | e];
      cbn [bind]; [ | discriminate ].
    intros H. inversion H; subst. cbn [div_100 map]. constructor.
    + reflexivity.
    + now apply IH.
Qed.

Lemma column_kept_trans (a b c : Series) :
  column_kept float_of_str a b -> column_kept float_of_str b c ->
  column_kept float_of_str a c.
Proof.
  intros [-> | (cells & xs & -> & -> & H)] [-> | (cells' & xs' & E & -> & H')].
  - now left.
  - right. now exists cells', xs'.
  - right. now exists cells, xs.
  - discriminate.
Qed.

Lemma column_kept_size (a b : Series) :
  column_kept float_of_str a b -> size b = size a.
Proof.
  intros [-> | (cells & xs & -> & -> & H)]; [ reflexivity | ].
  cbn [size]. symmetry. eapply Forall2_length, H.
Qed.

Lemma column_kept_refl (l : list Series) :
  Forall2 (column_kept float_of_str) l l.
Proof. induction l; constructor; [ now left | assumption ]. Qed.

Lemma pass_of_same (col : string) (df : DataFrame) (s : Series) :
  getitem col df = [s] -> dtype_of s <> object -> pass_of float_of_str col df df.
Proof.
  intros G N. repeat split; try reflexivity.
  - apply column_kept_refl.
  - intros s'. rewrite G. intros [<- | []]. destruct s; [ now elim N | | | ]; reflexivity.
Qed.

Lemma pass_of_setitem (col : string) (df : DataFrame) (cells : list (option string))
  (xs : list float) :
  getitem col df = [ObjectSeries cells] ->
  astype_float float_of_str (Series_str_replace "%" "" cells) = Ok xs ->
  pass_of float_of_str col df (setitem col (Float64Series (div_100 xs)) df).
Proof.
  intros G A. split; [ reflexivity | ]. split; [ apply columns_setitem | ].
  split; [ | split ].
  - assert (K : forall c, In c (data df) -> String.eqb (fst c) col = true ->
                          snd c = ObjectSeries cells).
    { intros c Hc E. pose proof (getitem_In col df c Hc E) as I.
      rewrite G in I. destruct I as [I | []]. now symmetry. }
    unfold setitem. cbn [data]. revert K. induction (data df) as [| c l IH]; intros K.
    + constructor.
    + cbn [map]. constructor.
      * destruct (String.eqb (fst c) col) eqn:E; [ | now left ].
        right. exists cells, (div_100 xs). cbn [snd].
        repeat split; [ apply K; [ now left | exact E ] | now apply astype_float_ratio ].
      * apply IH. intros c' Hc'. apply K. now right.
  - intros col' N. now apply getitem_setitem_other.
  - intros s. rewrite G. intros [<- | []]. exists xs. split; [ exact A | ].
    rewrite getitem_setitem_same, G. reflexivity.
Qed.

Lemma convert_pct_pass (col : string) (df df' : DataFrame) :
  convert_pct float_of_str col df = Ok df' -> pass_of float_of_str col df df'.
Proof.
  unfold convert_pct. destruct (has_column col df) eqn:Hc.
  - destruct (getitem col df) as [| s [| s' l]] eqn:G.
    + intros H. discriminate H.
    + destruct s as [cells | xs | zs | bs];
      try (intros H; inversion H; subst; eapply pass_of_same; [ exact G | discriminate ]).
      destruct (astype_float float_of_str (Series_str_replace "%" "" cells)) as [xs | e] eqn:A;
        cbn [bind]; [ | discriminate ].
      intros H. inversion H; subst. now apply pass_of_setitem with (cells := cells).
    + destruct s; intros H; discriminate H.
  - intros H. inversion H; subst. apply has_column_false in Hc.
    repeat split; try reflexivity.
    + apply column_kept_refl.
    + intros s. rewrite Hc. intros [].
Qed.

Lemma convert_pct_raises (col : string) (df : DataFrame) (e : exn) :
  convert_pct float_of_str col df = Raise e -> e = ValueError \/ e = AttributeError.
Proof.
  unfold convert_pct. destruct (has_column col df); [ | discriminate ].
  destruct (getitem col df) as [| s [| s' l]].
  - intros H. inversion H. now right.
  - destruct s as [cells | xs | zs | bs]; try discriminate.
    destruct (astype_float float_of_str (Series_str_replace "%" "" cells)) eqn:A;
      cbn [bind]; [ discriminate | ].
    intros H. inversion H; subst. left. eapply astype_float_raises, A.
  - destruct s; intros H; inversion H; now right.
Qed.

(** The two passes of [load_data] on a frame that was read. *)
Lemma load_data_passes (df df' : DataFrame) :
  snd (load_data float_of_str (Ok df)) = Ok df' ->
  exists df1,
    pass_of float_of_str "Target_Hit_Pct" (rename column_names df) df1 /\
    pass_of float_of_str "Away_From_Target_Pct" df1 df'.
Proof.
  cbn [load_data snd pct_columns convert_all].
  destruct (convert_pct float_of_str "Target_Hit_Pct" (rename column_names df))
    as [df1 | e] eqn:P1; cbn [bind]; [ | discriminate ].
  destruct (convert_pct float_of_str "Away_From_Target_Pct" df1)
    as [df2 | e] eqn:P2; cbn [bind]; [ | discriminate ].
  intros H. inversion H; subst. exists df1.
  split; now apply convert_pct_pass.
Qed.

Lemma has_column_true (col : string) (df : DataFrame) :
  has_column col df = true -> getitem col df <> [].
Proof.
  intros H E. unfold has_column in H. apply existsb_exists in H.
  destruct H as (name & I & Q). apply String.eqb_eq in Q. subst name.
  unfold columns in I. apply in_map_iff in I. destruct I as (c & Ec & Ic).
  assert (K : In (snd c) (getitem col df)).
  { apply getitem_In; [ exact Ic | ]. rewrite Ec. apply String.eqb_refl. }
  rewrite E in K. destruct K.
Qed.

Lemma astype_float_returns (cells : list (option string)) :
  Forall
    (fun cell =>
       match cell with
       | Some s => exists y, float_of_str (str_replace "%" "" s) = Some y
       | None => True
       end)
    cells ->
  exists xs, astype_float float_of_str (Series_str_replace "%" "" cells) = Ok xs.
Proof.
  unfold Series_str_replace.
  induction 1 as [| cell rest Hc _ (xs & IH)]; cbn [map astype_float].
  - now exists [].
  - destruct cell as [s |]; cbn [option_map].
    + destruct Hc as (y & ->). rewrite IH. cbn [bind]. now exists (y :: xs).
    + rewrite IH. cbn [bind]. now exists (nan :: xs).
Qed.

Lemma convert_pct_returns (col : string) (df : DataFrame) :
  convertible float_of_str (getitem col df) ->
  exists df', convert_pct float_of_str col df = Ok df'.
Proof.
  unfold convert_pct, convertible. destruct (has_column col df) eqn:Hc.
  - apply has_column_true in Hc.
    destruct (getitem col df) as [| s [| s' l]]; [ now elim Hc | | ].
    + destruct s as [cells | xs | zs | bs]; try (intros _; now exists df).
      intros F. destruct (astype_float_returns cells F) as (xs & ->).
      cbn [bind]. eexists. reflexivity.
    + destruct s; intros [].
  - intros _. now exists df.
Qed.

(** [load_data] returns a table, and shows nothing, on every loadable
    source. *)
Lemma load_data_returns (df : DataFrame) :
  loadable float_of_str df ->
  exists df', load_data float_of_str (Ok df) = ([], Ok df').
Proof.
  intros H. cbn [load_data pct_columns convert_all].
  destruct (convert_pct_returns "Target_Hit_Pct" (rename column_names df))
    as (df1 & P1); [ apply H; now left | ].
  rewrite P1. cbn [bind].
  destruct (convert_pct_returns "Away_From_Target_Pct" df1) as (df2 & P2).
  - apply convert_pct_pass in P1. destruct P1 as (_ & _ & _ & O & _).
    rewrite O by discriminate. apply H. right. now left.
  - rewrite P2. cbn [bind]. now exists df2.
Qed.

End LoadDataFacts.

(** On a text of the form ["NN.NN%"], one ['%'] at the end and none before,
    removing every ['%'] and stripping the trailing one are the same. *)
Lemma str_replace_one_trailing_pct (body : string) :
  has_pct body = false ->
  str_replace "%" "" (body ++ "%") = body /\
  strip_trailing_pct (body ++ "%") = body.
Proof.
  induction body as [| c body IH]; cbn [has_pct]; intros H.
  - split; reflexivity.
  - apply orb_false_iff in H. destruct H as [Hc Hb].
    destruct (IH Hb) as [IH1 IH2]. split.
    + cbn [append str_replace]. rewrite Hc. now rewrite IH1.
    + cbn [append]. destruct body as [| c' body'].
      * cbn. reflexivity.
      * cbn [append strip_trailing_pct] in *. now rewrite IH2.
Qed.

Section LoadDataProperties.

Variable float_of_str : string -> option float.

(** C8.  [load_data] preserves rows: for every table that was read, the load
    either raises ([ValueError] on a percentage text that does not convert,
    [AttributeError] on a duplicated percentage label) and returns no table,
    or returns a table with the same row labels in the same order, hence the
    same row count, whose columns are those of the source in the same order
    under their renamed labels, each with as many cells as before and each
    either the very same Series or a text percentage column converted cell by
    cell.  Only column labels and the representation of percentage columns
    change; no row is dropped or moved.  On every loadable source the load
    does return. *)
Theorem load_data_keeps_rows (df : DataFrame) :
  match snd (load_data float_of_str (Ok df)) with
  | Ok df' =>
      index df' = index df /\
      len df' = len df /\
      columns df' = map (rename_label column_names) (columns df) /\
      Forall2 (column_kept float_of_str) (map snd (data df)) (map snd (data df')) /\
      Forall2 (fun old new => size new = size old)
        (map snd (data df)) (map snd (data df'))
  | Raise e => (e = ValueError \/ e = AttributeError) /\ ~ loadable float_of_str df
  end.
Proof.
  destruct (snd (load_data float_of_str (Ok df))) as [df' | e] eqn:L.
  - apply load_data_passes in L. destruct L as (df1 & P1 & P2).
    destruct P1 as (I1 & C1 & K1 & _). destruct P2 as (I2 & C2 & K2 & _).
    destruct (rename_data column_names df) as (RC & RS & RI).
    assert (K : Forall2 (column_kept float_of_str)
                  (map snd (data df)) (map snd (data df'))).
    { rewrite <- RS. eapply Forall2_compose; [ | exact K1 | exact K2 ].
      apply column_kept_trans. }
    repeat split.
    + now rewrite I2, I1.
    + unfold len. now rewrite I2, I1, RI.
    + now rewrite C2, C1.
    + exact K.
    + eapply Forall2_impl; [ | exact K ]. intros a b. apply column_kept_size.
  - split.
    + cbn [load_data snd pct_columns convert_all] in L.
      destruct (convert_pct float_of_str "Target_Hit_Pct" (rename column_names df))
        as [df1 | e1] eqn:P1; cbn [bind] in L.
      * destruct (convert_pct float_of_str "Away_From_Target_Pct" df1)
          as [df2 | e2] eqn:P2; cbn [bind] in L; [ discriminate | ].
        inversion L; subst. eapply convert_pct_raises, P2.
      * inversion L; subst. eapply convert_pct_raises, P1.
    + intros H. destruct (load_data_returns float_of_str df H) as (df' & R).
      rewrite R in L. discriminate.
Qed.

(** C1, as amended.  [load_data] is type-guarded on the two percentage
    columns.  On every loadable source it returns a table; and whenever it
    returns a table, a percentage column stored as text has become a float
    column in which every cell is the text with every ['%'] character removed
    (not only a trailing one), converted by [float] and divided by 100, a
    missing cell staying NaN, while a percentage column that was already
    numeric is returned as the very same Series. *)
Theorem percentage_columns_type_guarded (df : DataFrame) :
  (loadable float_of_str df ->
   exists df', load_data float_of_str (Ok df) = ([], Ok df')) /\
  (forall df' col s,
      snd (load_data float_of_str (Ok df)) = Ok df' ->
      In col pct_columns ->
      In s (getitem col (rename column_names df)) ->
      match s with
      | ObjectSeries cells =>
          exists xs,
            getitem col df' = [Float64Series xs] /\
            Forall2 (ratio_of_cell float_of_str) cells xs
      | _ => getitem col df' = [s]
      end).
Proof.
  split; [ apply load_data_returns | ].
  intros df' col s L Hcol Hs.
  apply load_data_passes in L. destruct L as (df1 & P1 & P2).
  destruct P1 as (_ & _ & _ & O1 & S1). destruct P2 as (_ & _ & _ & O2 & S2).
  cbn [pct_columns In] in Hcol. destruct Hcol as [<- | [<- | []]].
  - specialize (S1 s Hs).
    assert (N : "Target_Hit_Pct" <> "Away_From_Target_Pct") by discriminate.
    rewrite (O2 _ N).
    destruct s as [cells | xs | zs | bs]; try exact S1.
    destruct S1 as (xs & A & G). exists (div_100 xs).
    split; [ exact G | now apply astype_float_ratio ].
  - assert (N : "Away_From_Target_Pct" <> "Target_Hit_Pct") by discriminate.
    rewrite <- (O1 _ N) in Hs. specialize (S2 s Hs).
    destruct s as [cells | xs | zs | bs]; try exact S2.
    destruct S2 as (xs & A & G). exists (div_100 xs).
    split; [ exact G | now apply astype_float_ratio ].
Qed.

(** C2, as amended.  When the read fails, nothing is filtered, aggregated or
    rendered.  A missing file ([FileNotFoundError]) makes [load_data] show its
    message and return the empty frame, and the caller stops the run; any other
    failure of the read is not caught, shows no message of the program and
    ends the run with that exception.  The dashboard code only ever runs on a
    non-empty frame that [load_data] returned for a source that was read. *)
Theorem read_failure_never_renders (e : exn) :
  (if is_FileNotFoundError e
   then load_data float_of_str (Raise e) = ([not_found_message], Ok empty_frame) /\
        script float_of_str (Raise e) = Stopped [not_found_message]
   else load_data float_of_str (Raise e) = ([], Raise e) /\
        script float_of_str (Raise e) = Crashed e) /\
  (forall read_csv shown df,
      script float_of_str read_csv = Dashboard shown df ->
      exists source,
        read_csv = Ok source /\
        load_data float_of_str read_csv = (shown, Ok df) /\
        empty df = false).
Proof.
  split.
  - unfold script, load_data. destruct (is_FileNotFoundError e); split; reflexivity.
  - intros read_csv shown df. unfold script.
    destruct read_csv as [source | e'].
    + destruct (load_data float_of_str (Ok source)) as [shown' [df' | e'']] eqn:L;
        [ | discriminate ].
      destruct (empty df') eqn:E; [ discriminate | ].
      intros H. inversion H; subst. exists source. repeat split. exact E.
    + cbn [load_data]. destruct (is_FileNotFoundError e'); cbn; discriminate.
Qed.

End LoadDataProperties.

(** The source of the specification's example is loadable. *)
Lemma example_source_loadable : loadable decimal_float example_source.
Proof.
  intros col [<- | [<- | []]]; vm_compute; repeat constructor;
    eexists; reflexivity.
Qed.

(** C1 on the example of the specification: the source is loaded, and its
    text column holding ["50.00%"] comes back as the float column holding
    [0.5]. *)
Lemma percentage_columns_type_guarded_witness :
  (exists df', load_data decimal_float (Ok example_source) = ([], Ok df')) /\
  getitem "Target_Hit_Pct" example_loaded = [Float64Series [0.5%float]] /\
  exists xs,
    getitem "Target_Hit_Pct" example_loaded = [Float64Series xs] /\
    Forall2 (ratio_of_cell decimal_float) [Some "50.00%"] xs.
Proof.
  destruct (percentage_columns_type_guarded decimal_float example_source)
    as [Returns Guarded].
  split; [ exact (Returns example_source_loadable) | ].
  split; [ reflexivity | ].
  apply (Guarded example_loaded "Target_Hit_Pct" (ObjectSeries [Some "50.00%"])).
  - vm_compute. reflexivity.
  - left. reflexivity.
  - left. reflexivity.
Defined.

(** C1 as stated fails on a cell whose ['%'] is not trailing: stripping a
    trailing ['%'] from ["5%0"] changes nothing and leaves a text that is no
    number, while the program removes the sign where it stands and loads the
    cell as 50 / 100. *)
Lemma percent_sign_removed_anywhere :
  strip_trailing_pct "5%0" = "5%0" /\
  decimal_float (strip_trailing_pct "5%0") = None /\
  str_replace "%" "" "5%0" = "50" /\
  load_data decimal_float (Ok inner_pct_source) = ([], Ok inner_pct_loaded).
Proof.
  repeat split; vm_compute; reflexivity.
Qed.

(** C2 as stated fails on a file that exists and cannot be read: the
    exception is not the one [load_data] catches, so no message is shown and
    the run ends on the exception. *)
Lemma unreadable_file_shows_no_message :
  load_data decimal_float (Raise PermissionError) = ([], Raise PermissionError) /\
  script decimal_float (Raise PermissionError) = Crashed PermissionError.
Proof.
  split; reflexivity.
Qed.

(* ================================================================== *)
(** ** The region filter and the KPIs (lines 74-92) *)

Lemma contains_In (x : string) (l : list string) :
  contains x l = true <-> In x l.
Proof.
  unfold contains. rewrite existsb_exists. split.
  - intros (y & Hy & E). apply String.eqb_eq in E. now subst.
  - intros H. exists x. split; [ exact H | apply String.eqb_refl ].
Qed.

Lemma isin_In (values : list string) (cell : option string) :
  isin values cell = true <-> exists s, cell = Some s /\ In s values.
Proof.
  destruct cell as [s |]; cbn [isin].
  - rewrite contains_In. split.
    + intros H. now exists s.
    + intros (s' & E & H). now inversion E; subst.
  - split; [ discriminate | intros (s & E & _); discriminate ].
Qed.

Lemma filter_all {A : Type} (f : A -> bool) (l : list A) :
  (forall x, In x l -> f x = true) -> filter f l = l.
Proof.
  induction l as [| a l IH]; intros H; cbn [filter].
  - reflexivity.
  - rewrite (H a (or_introl eq_refl)). f_equal. apply IH.
    intros x Hx. apply H. now right.
Qed.

Lemma count_rows_length (mask : Row -> bool) (df : Table) :
  List.length (where_ mask df) = count_rows mask df.
Proof.
  unfold where_. induction df as [| r df IH]; cbn [filter count_rows].
  - reflexivity.
  - destruct (mask r); cbn [List.length]; now rewrite IH.
Qed.

Lemma dropna_In (cells : list (option string)) (s : string) :
  In s (dropna cells) <-> In (Some s) cells.
Proof.
  induction cells as [| [c |] rest IH]; cbn [dropna In].
  - tauto.
  - rewrite IH. split; intros [H | H]; auto; left; congruence.
  - rewrite IH. split; [ now right | intros [H | H]; [ discriminate | exact H ] ].
Qed.

Lemma df_filtered_where (df : Table) (selected_states : list string) :
  df_filtered df selected_states
  = where_ (region_predicate selected_states) df.
Proof.
  unfold df_filtered, region_predicate, where_.
  destruct (contains All_Regions selected_states); cbn [negb orb].
  - symmetry. now apply filter_all.
  - reflexivity.
Qed.

Section DashboardProperties.

Variable Series_sum : list float -> float.
Variable Series_mean : list float -> float.
Variable sort_values : (Row -> float) -> bool -> Table -> Table.

(** C3.  The region filter is a subset relation: for every table and every
    selection, the filtered table is the source with some rows left out, in
    the source's order; when the sentinel ['All Regions'] is not selected,
    every row of it has its region in the selection; when the sentinel is
    selected, it is the source itself, all rows in their order. *)
Theorem region_filter_subset (df : Table) (selected_states : list string) :
  df_filtered df selected_states
  = where_ (region_predicate selected_states) df /\
  (forall r, In r (df_filtered df selected_states) -> In r df) /\
  (~ In All_Regions selected_states ->
   forall r,
     In r (df_filtered df selected_states) ->
     exists region, Region r = Some region /\ In region selected_states) /\
  (In All_Regions selected_states -> df_filtered df selected_states = df).
Proof.
  split; [ apply df_filtered_where | ]. split; [ | split ].
  - intros r. rewrite df_filtered_where. unfold where_. rewrite filter_In. tauto.
  - intros N r. unfold df_filtered.
    destruct (contains All_Regions selected_states) eqn:C.
    + apply contains_In in C. contradiction.
    + cbn [negb]. unfold where_. rewrite filter_In. intros [_ H].
      now apply isin_In.
  - intros H. unfold df_filtered. apply contains_In in H. now rewrite H.
Qed.

(** C5.  The KPIs are taken over the filtered view: for every table and
    selection, the total-sales KPI is [Series.sum] of [Total_Sales] over
    exactly the rows that satisfy the region predicate, in their order; the
    salesmen count is the number of distinct [Emp_Code] values found in those
    rows (a missing cell is no value); the target-achieved count is the number
    of those rows whose [Target_Hit_Pct] is at least 1.0. *)
Theorem kpis_over_filtered_view (df : Table) (selected_states : list string) :
  let view := df_filtered df selected_states in
  (forall r, In r view <-> In r df /\ region_predicate selected_states r = true) /\
  total_sales Series_sum view
  = Series_sum (map Total_Sales (where_ (region_predicate selected_states) df)) /\
  (exists codes,
      NoDup codes /\
      (forall c, In c codes <-> exists r, In r view /\ Emp_Code r = Some c) /\
      total_salesmen view = List.length codes) /\
  target_achieved_count view
  = count_rows
      (fun r => region_predicate selected_states r && (1 <=? Target_Hit_Pct r)%float)
      df.
Proof.
  cbv zeta. rewrite df_filtered_where. repeat split.
  - unfold where_ in H. now apply filter_In in H.
  - unfold where_ in H. now apply filter_In in H.
  - intros [H1 H2]. unfold where_. now apply filter_In.
  - exists (nodup string_dec
              (dropna (map Emp_Code (where_ (region_predicate selected_states) df)))).
    split; [ apply NoDup_nodup | ]. split; [ | reflexivity ].
    intros c. rewrite nodup_In, dropna_In, in_map_iff. split.
    + intros (r & E & H). now exists r.
    + intros (r & H & E). now exists r.
  - unfold target_achieved_count. rewrite count_rows_length. unfold where_.
    induction df as [| r rest IH]; cbn [filter count_rows].
    + reflexivity.
    + destruct (region_predicate selected_states r); cbn [andb count_rows].
      * now rewrite IH.
      * exact IH.
Qed.

(** C10.  With an empty selection (no region, no sentinel) the filtered table
    has no row, whatever the source, and everything downstream is computed
    over the empty table: the sum and the mean are those of no cell, both
    counts are zero, the ranking with its top-5 and bottom-5 and the support
    list are empty. *)
Theorem empty_selection_empties_view (df : Table) (target_threshold : float) :
  let view := df_filtered df [] in
  view = [] /\
  total_sales Series_sum view = Series_sum [] /\
  avg_target_hit Series_mean view = (Series_mean [] * 100)%float /\
  total_salesmen view = 0 /\
  target_achieved_count view = 0 /\
  (sort_values_spec Total_Sales false [] (sort_values Total_Sales false []) ->
   salesmen_rank sort_values view = [] /\
   top_5 sort_values view = [] /\
   bottom_5 sort_values view = []) /\
  (sort_values_spec Target_Hit_Pct true [] (sort_values Target_Hit_Pct true []) ->
   df_support sort_values view target_threshold = []).
Proof.
  assert (E : df_filtered df [] = []).
  { unfold df_filtered. cbn [contains existsb negb]. unfold where_.
    induction df as [| r rest IH]; [ reflexivity | ].
    cbn [filter]. destruct (Region r); cbn [isin contains existsb]; exact IH. }
  cbv zeta. rewrite E. repeat split.
  - unfold salesmen_rank. destruct H as [P _]. now apply Permutation_nil.
  - unfold top_5, salesmen_rank. destruct H as [P _].
    apply Permutation_nil in P. now rewrite P.
  - unfold bottom_5, salesmen_rank. destruct H as [P _].
    apply Permutation_nil in P. now rewrite P.
  - intros [P _]. unfold df_support, where_. cbn [filter].
    now apply Permutation_nil.
Qed.

End DashboardProperties.

(* ================================================================== *)
(** ** Ordering: the ranking and the support list (lines 114-117, 163) *)

Lemma SFcompare_refl (s : spec_float) :
  s <> S754_nan -> SFcompare s s = Some Eq.
Proof.
  destruct s as [b | b | | b m e]; cbn [SFcompare]; intros H; try congruence.
  - destruct b; reflexivity.
  - rewrite Z.compare_refl. fold (Pos.compare m m). rewrite Pos.compare_refl.
    destruct b; reflexivity.
Qed.

(** A float that is below another one is not NaN. *)
Lemma ltb_not_nan (x t : float) : (x <? t)%float = true -> is_nan x = false.
Proof.
  unfold is_nan. rewrite FloatAxioms.ltb_spec, FloatAxioms.eqb_spec.
  unfold SFltb, SFeqb.
  destruct (Prim2SF x) eqn:E.
  - intros _. rewrite SFcompare_refl by discriminate. reflexivity.
  - intros _. rewrite SFcompare_refl by discriminate. reflexivity.
  - cbn [SFcompare]. discriminate.
  - intros _. rewrite SFcompare_refl by discriminate. reflexivity.
Qed.

(** [<=] on floats that are not NaN is the lexicographic order of their
    triples, hence total and transitive. *)
Lemma SFleb_lex (f1 f2 : spec_float) :
  f1 <> S754_nan -> f2 <> S754_nan ->
  (SFleb f1 f2 = true <-> lex_le (sf_key f1) (sf_key f2)).
Proof.
  intros N1 N2. unfold SFleb.
  destruct f1 as [s1 | s1 | | s1 m1 e1]; [ | | congruence | ];
    (destruct f2 as [s2 | s2 | | s2 m2 e2]; [ | | congruence | ]);
    destruct s1, s2; cbn [SFcompare sf_key lex_le];
    try (split; [ intros _; lia | reflexivity ]);
    try (split; [ discriminate | intros H; exfalso; lia ]).
  - fold (Pos.compare m1 m2).
    destruct (Z.compare_spec e1 e2); cbn [CompOpp];
      try (split; [ intros _; lia | reflexivity ]);
      try (split; [ discriminate | intros H'; exfalso; lia ]).
    destruct (Pos.compare_spec m1 m2); cbn [CompOpp];
      try (split; [ intros _; lia | reflexivity ]);
      try (split; [ discriminate | intros H'; exfalso; lia ]).
  - fold (Pos.compare m1 m2).
    destruct (Z.compare_spec e1 e2);
      try (split; [ intros _; lia | reflexivity ]);
      try (split; [ discriminate | intros H'; exfalso; lia ]).
    destruct (Pos.compare_spec m1 m2);
      try (split; [ intros _; lia | reflexivity ]);
      try (split; [ discriminate | intros H'; exfalso; lia ]).
Qed.

Lemma is_nan_Prim2SF (x : float) :
  is_nan x = false <-> Prim2SF x <> S754_nan.
Proof.
  unfold is_nan. rewrite FloatAxioms.eqb_spec. unfold SFeqb. split.
  - intros H E. rewrite E in H. discriminate.
  - intros N. now rewrite SFcompare_refl.
Qed.

Lemma leb_true_not_nan (x y : float) :
  (x <=? y)%float = true -> is_nan x = false /\ is_nan y = false.
Proof.
  rewrite FloatAxioms.leb_spec, !is_nan_Prim2SF. unfold SFleb.
  intros H. split; intros E; rewrite E in H.
  - discriminate.
  - destruct (Prim2SF x); discriminate.
Qed.

Lemma leb_lex (x y : float) :
  is_nan x = false -> is_nan y = false ->
  ((x <=? y)%float = true <-> lex_le (sf_key (Prim2SF x)) (sf_key (Prim2SF y))).
Proof.
  rewrite !is_nan_Prim2SF, FloatAxioms.leb_spec. apply SFleb_lex.
Qed.

Lemma lex_le_total (a b : Z * Z * Z) : lex_le a b \/ lex_le b a.
Proof. destruct a as [[a1 a2] a3], b as [[b1 b2] b3]. cbn. lia. Qed.

Lemma lex_le_trans (a b c : Z * Z * Z) : lex_le a b -> lex_le b c -> lex_le a c.
Proof.
  destruct a as [[a1 a2] a3], b as [[b1 b2] b3], c as [[c1 c2] c3]. cbn. lia.
Qed.

Lemma leb_total (x y : float) :
  is_nan x = false -> is_nan y = false ->
  (x <=? y)%float = false -> (y <=? x)%float = true.
Proof.
  intros Nx Ny H. apply (leb_lex y x Ny Nx).
  destruct (lex_le_total (sf_key (Prim2SF x)) (sf_key (Prim2SF y))) as [L | L];
    [ | exact L ].
  apply (leb_lex x y Nx Ny) in L. congruence.
Qed.

Lemma leb_trans (x y z : float) :
  (x <=? y)%float = true -> (y <=? z)%float = true -> (x <=? z)%float = true.
Proof.
  intros Hxy Hyz.
  destruct (leb_true_not_nan _ _ Hxy) as [Nx Ny].
  destruct (leb_true_not_nan _ _ Hyz) as [_ Nz].
  apply (leb_lex x z Nx Nz).
  eapply lex_le_trans; [ apply (leb_lex x y Nx Ny), Hxy | apply (leb_lex y z Ny Nz), Hyz ].
Qed.

Lemma StronglySorted_app_inv {A : Type} (R : A -> A -> Prop) (l1 l2 : list A) :
  StronglySorted R (l1 ++ l2) ->
  forall a b, In a l1 -> In b l2 -> R a b.
Proof.
  induction l1 as [| x l1 IH]; cbn [app]; intros S a b Ha Hb.
  - destruct Ha.
  - apply StronglySorted_inv in S. destruct S as [S F].
    destruct Ha as [<- | Ha].
    + rewrite Forall_forall in F. apply F, in_or_app. now right.
    + now apply IH.
Qed.

Lemma StronglySorted_app {A : Type} (R : A -> A -> Prop) (l1 l2 : list A) :
  StronglySorted R l1 -> StronglySorted R l2 ->
  (forall a b, In a l1 -> In b l2 -> R a b) ->
  StronglySorted R (l1 ++ l2).
Proof.
  intros S1 S2. induction S1 as [| x l1 S1 IH F]; cbn [app]; intros C.
  - exact S2.
  - constructor.
    + apply IH. intros a b Ha. apply C. now right.
    + apply Forall_app. split; [ exact F | ].
      apply Forall_forall. intros b Hb. apply C; [ now left | exact Hb ].
Qed.

Lemma StronglySorted_weaken {A : Type} (R R' : A -> A -> Prop) (l : list A) :
  (forall a b, In a l -> In b l -> R a b -> R' a b) ->
  StronglySorted R l -> StronglySorted R' l.
Proof.
  intros W S. induction S as [| x l S IH F].
  - constructor.
  - constructor.
    + apply IH. intros a b Ha Hb. apply W; now right.
    + rewrite Forall_forall in *. intros b Hb.
      apply W; [ now left | now right | now apply F ].
Qed.

Lemma StronglySorted_any {A : Type} (R : A -> A -> Prop) (l : list A) :
  (forall a b, In a l -> In b l -> R a b) -> StronglySorted R l.
Proof.
  induction l as [| x l IH]; intros H; constructor.
  - apply IH. intros a b Ha Hb. apply H; now right.
  - apply Forall_forall. intros b Hb. apply H; [ now left | now right ].
Qed.

Lemma NoDup_app_disjoint {A : Type} (l1 l2 : list A) (a : A) :
  NoDup (l1 ++ l2) -> In a l1 -> In a l2 -> False.
Proof.
  induction l1 as [| x l1 IH]; cbn [app]; intros N H1 H2.
  - destruct H1.
  - inversion N as [| y l Hx N']; subst. destruct H1 as [<- | H1].
    + apply Hx, in_or_app. now right.
    + now apply IH.
Qed.

(** A descending [sort_values] result is ranked throughout, the rows without
    a key included. *)
Lemma sort_values_ranked (key : Row -> float) (df out : Table) :
  sort_values_spec key false df out ->
  StronglySorted (fun a b => ranks_before (key a) (key b) = true) out.
Proof.
  intros (_ & present & missing & -> & Hp & Hm & S).
  rewrite Forall_forall in Hp, Hm.
  apply StronglySorted_app.
  - eapply StronglySorted_weaken; [ | exact S ].
    cbn [in_order]. intros a b Ha _ L. unfold ranks_before.
    rewrite (Hp a Ha), L. cbn [negb andb]. apply orb_true_r.
  - apply StronglySorted_any. intros a b _ Hb. unfold ranks_before.
    now rewrite (Hm b Hb).
  - intros a b _ Hb. unfold ranks_before. now rewrite (Hm b Hb).
Qed.

(** An ascending [sort_values] result in which no key is NaN is sorted
    throughout. *)
Lemma sort_values_ascending (key : Row -> float) (df out : Table) :
  sort_values_spec key true df out ->
  (forall r, In r df -> is_nan (key r) = false) ->
  StronglySorted (fun a b => (key a <=? key b)%float = true) out.
Proof.
  intros (P & present & missing & -> & _ & Hm & S) N.
  destruct missing as [| r missing].
  - rewrite app_nil_r. exact S.
  - exfalso. inversion Hm as [| r' l' Hr _]; subst.
    assert (I : In r df).
    { eapply Permutation_in; [ apply Permutation_sym, P | ].
      apply in_or_app. right. now left. }
    rewrite (N r I) in Hr. discriminate.
Qed.

Lemma ranks_before_leb (x y : float) :
  ranks_before x y = true -> is_nan y = false -> (y <=? x)%float = true.
Proof.
  unfold ranks_before. intros H N. rewrite N in H. cbn [orb] in H.
  now apply andb_true_iff in H.
Qed.

Lemma insert_by_Permutation (key : Row -> float) (ascending : bool)
  (r : Row) (l : Table) :
  Permutation (r :: l) (insert_by key ascending r l).
Proof.
  induction l as [| x l IH]; cbn [insert_by].
  - apply Permutation_refl.
  - destruct (if ascending then (key r <=? key x)%float else (key x <=? key r)%float).
    + apply Permutation_refl.
    + eapply Permutation_trans; [ apply perm_swap | now apply perm_skip ].
Qed.

(** The insertion sort returns the rows it was given. *)
Lemma insertion_sort_values_Permutation (key : Row -> float) (ascending : bool)
  (df : Table) :
  Permutation df (insertion_sort_values key ascending df).
Proof.
  unfold insertion_sort_values.
  apply Permutation_trans
    with (filter (fun r => negb (is_nan (key r))) df
          ++ filter (fun r => is_nan (key r)) df).
  - induction df as [| a df IH]; cbn [filter]; [ constructor | ].
    destruct (is_nan (key a)); cbn [negb app].
    + now apply Permutation_cons_app.
    + now apply perm_skip.
  - apply Permutation_app_tail.
    induction (filter (fun r => negb (is_nan (key r))) df) as [| a l IH];
      cbn [fold_right]; [ constructor | ].
    eapply Permutation_trans; [ apply perm_skip, IH | apply insert_by_Permutation ].
Qed.

Lemma in_order_total (ascending : bool) (x y : float) :
  is_nan x = false -> is_nan y = false ->
  (if ascending then x <=? y else y <=? x)%float = false ->
  in_order ascending y x.
Proof.
  destruct ascending; cbn [in_order]; intros Nx Ny H; now apply leb_total.
Qed.

Lemma in_order_trans (ascending : bool) (x y z : float) :
  in_order ascending x y -> in_order ascending y z -> in_order ascending x z.
Proof.
  destruct ascending; cbn [in_order]; intros H1 H2; eapply leb_trans; eassumption.
Qed.

Lemma insert_by_sorted (key : Row -> float) (ascending : bool) (r : Row) (l : Table) :
  is_nan (key r) = false ->
  Forall (fun x => is_nan (key x) = false) l ->
  StronglySorted (fun a b => in_order ascending (key a) (key b)) l ->
  StronglySorted (fun a b => in_order ascending (key a) (key b))
    (insert_by key ascending r l).
Proof.
  intros Nr Nl S. induction S as [| x l S IH F]; cbn [insert_by].
  - repeat constructor.
  - inversion Nl as [| x' l' Nx Nl']; subst.
    destruct (if ascending then (key r <=? key x)%float else (key x <=? key r)%float) eqn:T.
    + constructor; [ now constructor | ].
      assert (Rrx : in_order ascending (key r) (key x)) by (now destruct ascending).
      constructor; [ exact Rrx | ].
      eapply Forall_impl; [ | exact F ]. intros y Rxy.
      eapply in_order_trans; eassumption.
    + constructor; [ now apply IH | ].
      eapply Permutation_Forall; [ apply insert_by_Permutation | ].
      constructor; [ | exact F ].
      now apply in_order_total.
Qed.

(** The insertion sort keeps the promise of [sort_values] on every table. *)
Lemma insertion_sort_values_spec (key : Row -> float) (ascending : bool) (df : Table) :
  sort_values_spec key ascending df (insertion_sort_values key ascending df).
Proof.
  split; [ apply insertion_sort_values_Permutation | ].
  exists (fold_right (insert_by key ascending) []
            (filter (fun r => negb (is_nan (key r))) df)),
         (filter (fun r => is_nan (key r)) df).
  assert (K : Forall (fun r => is_nan (key r) = false)
                (filter (fun r => negb (is_nan (key r))) df)).
  { apply Forall_forall. intros r I. apply filter_In in I.
    now apply negb_true_iff. }
  split; [ reflexivity | ].
  induction (filter (fun r => negb (is_nan (key r))) df) as [| a l IH];
    cbn [fold_right].
  - repeat split; try constructor.
    apply Forall_forall. intros r I. now apply filter_In in I.
  - inversion K as [| a' l' Na Kl]; subst.
    destruct (IH Kl) as (Fp & Fm & S). repeat split.
    + eapply Permutation_Forall; [ apply insert_by_Permutation | ].
      now constructor.
    + exact Fm.
    + now apply insert_by_sorted.
Qed.

Section OrderingProperties.

Variable sort_values : (Row -> float) -> bool -> Table -> Table.

(** C4.  Support-list membership and order: for every filtered table and
    every threshold, when [sort_values] keeps its promise on the rows handed
    to it, a row is in the support list if and only if it is a row of the
    filtered table whose [Target_Hit_Pct] is strictly below the threshold (a
    missing ratio is below nothing), each such row appears as often as in the
    filtered table, and the list is sorted ascending by [Target_Hit_Pct]. *)
Theorem support_list_membership_and_order
  (df_filtered : Table) (target_threshold : float) :
  sort_values_spec Target_Hit_Pct true
    (where_ (fun r => (Target_Hit_Pct r <? target_threshold)%float) df_filtered)
    (df_support sort_values df_filtered target_threshold) ->
  (forall r,
      In r (df_support sort_values df_filtered target_threshold) <->
      In r df_filtered /\ (Target_Hit_Pct r <? target_threshold)%float = true) /\
  Permutation
    (where_ (fun r => (Target_Hit_Pct r <? target_threshold)%float) df_filtered)
    (df_support sort_values df_filtered target_threshold) /\
  StronglySorted
    (fun a b => (Target_Hit_Pct a <=? Target_Hit_Pct b)%float = true)
    (df_support sort_values df_filtered target_threshold).
Proof.
  intros H. pose proof H as (P & _). split; [ | split ].
  - intros r. split.
    + intros I. apply Permutation_sym in P.
      apply (Permutation_in _ P) in I. unfold where_ in I.
      now apply filter_In in I.
    + intros I. apply (Permutation_in _ P). unfold where_. now apply filter_In.
  - exact P.
  - eapply sort_values_ascending; [ exact H | ].
    intros r I. unfold where_ in I. apply filter_In in I.
    eapply ltb_not_nan, I.
Qed.

(** C6.  Top-5 and bottom-5: the ranking is the filtered table sorted by
    [Total_Sales] descending, [top_5] its first five rows and [bottom_5] its
    last five.  For every filtered table of at least ten rows, on which
    [sort_values] keeps its promise, the ranking is the top-5, then the rows
    in between, then the bottom-5, each of the two holding five rows and no
    row label found in both; every top-5 row ranks at or before every row
    outside the top-5, and every row outside the bottom-5 ranks at or before
    every bottom-5 row.  When no [Total_Sales] is missing, ranking is [>=] on
    the amounts: every top-5 amount is [>=] every other row's amount and every
    bottom-5 amount is [<=] every other row's. *)
Theorem top_and_bottom_are_the_extremes (df_filtered : Table) :
  10 <= List.length df_filtered ->
  NoDup (map label df_filtered) ->
  sort_values_spec Total_Sales false df_filtered
    (salesmen_rank sort_values df_filtered) ->
  let top := top_5 sort_values df_filtered in
  let bottom := bottom_5 sort_values df_filtered in
  top = firstn 5 (salesmen_rank sort_values df_filtered) /\
  (exists middle, salesmen_rank sort_values df_filtered = top ++ middle ++ bottom) /\
  List.length top = 5 /\
  List.length bottom = 5 /\
  (forall t b, In t top -> In b bottom -> label t <> label b) /\
  (forall t r,
      In t top -> In r df_filtered -> ~ In r top ->
      ranks_before (Total_Sales t) (Total_Sales r) = true) /\
  (forall b r,
      In b bottom -> In r df_filtered -> ~ In r bottom ->
      ranks_before (Total_Sales r) (Total_Sales b) = true) /\
  ((forall r, In r df_filtered -> is_nan (Total_Sales r) = false) ->
   (forall t r,
       In t top -> In r df_filtered -> ~ In r top ->
       (Total_Sales r <=? Total_Sales t)%float = true) /\
   (forall b r,
       In b bottom -> In r df_filtered -> ~ In r bottom ->
       (Total_Sales b <=? Total_Sales r)%float = true)).
Proof.
  intros Hlen Hnd Hs. cbv zeta.
  unfold top_5, bottom_5, head, tail.
  set (rank := salesmen_rank sort_values df_filtered) in *.
  pose proof Hs as (P & _).
  pose proof (sort_values_ranked _ _ _ Hs) as S.
  assert (L : List.length rank = List.length df_filtered)
    by (symmetry; now apply Permutation_length).
  set (n := List.length df_filtered) in *.
  set (middle := firstn (n - 10) (skipn 5 rank)).
  assert (B : skipn (List.length rank - 5) rank = skipn (n - 10) (skipn 5 rank)).
  { rewrite skipn_skipn, L. f_equal. lia. }
  assert (D : rank = firstn 5 rank ++ middle ++ skipn (List.length rank - 5) rank).
  { rewrite B. unfold middle. now rewrite firstn_skipn, firstn_skipn. }
  assert (IR : forall r, In r df_filtered -> In r rank)
    by (intros r; apply Permutation_in, P).
  assert (Top : forall t r,
             In t (firstn 5 rank) -> In r df_filtered -> ~ In r (firstn 5 rank) ->
             ranks_before (Total_Sales t) (Total_Sales r) = true).
  { intros t r Ht Hr N. rewrite D in S.
    apply (StronglySorted_app_inv _ _ _ S t r Ht).
    apply IR in Hr. rewrite D in Hr. apply in_app_or in Hr.
    destruct Hr as [Hr | Hr]; [ contradiction | exact Hr ]. }
  assert (Bot : forall b r,
             In b (skipn (List.length rank - 5) rank) -> In r df_filtered ->
             ~ In r (skipn (List.length rank - 5) rank) ->
             ranks_before (Total_Sales r) (Total_Sales b) = true).
  { intros b r Hb Hr N. rewrite D, app_assoc in S.
    apply (StronglySorted_app_inv _ _ _ S r b); [ | exact Hb ].
    apply IR in Hr. rewrite D, app_assoc in Hr. apply in_app_or in Hr.
    destruct Hr as [Hr | Hr]; [ exact Hr | contradiction ]. }
  assert (IV : forall r, In r rank -> In r df_filtered)
    by (intros r; apply Permutation_in, Permutation_sym, P).
  split; [ reflexivity | ]. split; [ now exists middle | ].
  split; [ rewrite length_firstn; lia | ].
  split; [ rewrite length_skipn; lia | ].
  split; [ | split; [ exact Top | split; [ exact Bot | ] ] ].
  - intros t b Ht Hb E.
    assert (N : NoDup (map label rank))
      by (eapply Permutation_NoDup; [ apply Permutation_map, P | exact Hnd ]).
    rewrite D, map_app in N.
    apply (NoDup_app_disjoint _ _ (label t) N).
    + now apply in_map.
    + rewrite E. apply in_map, in_or_app. now right.
  - intros N. split.
    + intros t r Ht Hr Hn. apply ranks_before_leb; [ now apply Top | now apply N ].
    + intros b r Hb Hr Hn. apply ranks_before_leb; [ now apply Bot | ].
      apply N, IV. rewrite D. apply in_or_app. right. apply in_or_app. now right.
Qed.

End OrderingProperties.

(* ================================================================== *)
(** ** The statements on the example table *)

(** C4 on the example table with the default threshold 0.6: the support list
    is rows 7, 3, 0, 5, 9 (ratios 0.25, 0.4, 0.5, 0.55, 0.55); row 8, whose
    ratio is missing, is left out. *)
Lemma support_list_membership_and_order_witness :
  (forall r,
      In r (df_support insertion_sort_values example_table 0.6) <->
      In r example_table /\ (Target_Hit_Pct r <? 0.6)%float = true) /\
  Permutation
    (where_ (fun r => (Target_Hit_Pct r <? 0.6)%float) example_table)
    (df_support insertion_sort_values example_table 0.6) /\
  StronglySorted
    (fun a b => (Target_Hit_Pct a <=? Target_Hit_Pct b)%float = true)
    (df_support insertion_sort_values example_table 0.6).
Proof.
  apply (support_list_membership_and_order insertion_sort_values example_table 0.6).
  unfold df_support. apply insertion_sort_values_spec.
Defined.

(** C6 on the example table: the ranking is rows 6, 1, 4, 8, 2, 5, 9, 7, 0, 3,
    so the top-5 holds the amounts from 6000 down to 3100 and the bottom-5
    those from 2750 down to 800. *)
Lemma top_and_bottom_are_the_extremes_witness :
  map label (top_5 insertion_sort_values example_table) = [6; 1; 4; 8; 2] /\
  map label (bottom_5 insertion_sort_values example_table) = [5; 9; 7; 0; 3] /\
  (forall t b,
      In t (top_5 insertion_sort_values example_table) ->
      In b (bottom_5 insertion_sort_values example_table) ->
      label t <> label b) /\
  (forall t r,
      In t (top_5 insertion_sort_values example_table) ->
      In r example_table ->
      ~ In r (top_5 insertion_sort_values example_table) ->
      (Total_Sales r <=? Total_Sales t)%float = true) /\
  (forall b r,
      In b (bottom_5 insertion_sort_values example_table) ->
      In r example_table ->
      ~ In r (bottom_5 insertion_sort_values example_table) ->
      (Total_Sales b <=? Total_Sales r)%float = true).
Proof.
  assert (N : forall r, In r example_table -> is_nan (Total_Sales r) = false).
  { apply Forall_forall. vm_compute. repeat constructor. }
  assert (L : 10 <= List.length example_table) by (cbn; lia).
  assert (D : NoDup (map label example_table)) by (apply (seq_NoDup 10 0)).
  assert (S : sort_values_spec Total_Sales false example_table
                (salesmen_rank insertion_sort_values example_table)).
  { unfold salesmen_rank. apply insertion_sort_values_spec. }
  destruct (top_and_bottom_are_the_extremes insertion_sort_values example_table L D S)
    as (_ & _ & _ & _ & Hl & _ & _ & Hv).
  destruct (Hv N) as [Ht Hb].
  split; [ vm_compute; reflexivity | ].
  split; [ vm_compute; reflexivity | ].
  split; [ exact Hl | ]. split; [ exact Ht | exact Hb ].
Defined.

(* ================================================================== *)
(** ** The examples of the specification, run *)

(** The one-row source loads to the frame with both ratios at 0.5. *)
Example load_example_source :
  load_data decimal_float (Ok example_source) = ([], Ok example_loaded) /\
  script decimal_float (Ok example_source) = Dashboard [] example_loaded.
Proof.
  split; vm_compute; reflexivity.
Qed.

(** A row whose ratio is 0.5 is in the support list at threshold 0.6 and not
    at threshold 0.4. *)
Example support_list_thresholds :
  map label (df_support insertion_sort_values (firstn 1 example_table) 0.6) = [0] /\
  df_support insertion_sort_values (firstn 1 example_table) 0.4 = [].
Proof.
  split; vm_compute; reflexivity.
Qed.

(** Selecting the sentinel alone returns every row; selecting two regions
    returns their rows in source order; with fewer than ten rows the top-5 and
    the bottom-5 overlap. *)
Example region_selections :
  df_filtered example_table ["All Regions"] = example_table /\
  map label (df_filtered example_table ["North"; "East"]) = [0; 2; 3; 5; 6; 8; 9] /\
  map label (top_5 insertion_sort_values (df_filtered example_table ["North"; "East"]))
  = [6; 8; 2; 5; 9] /\
  map label (bottom_5 insertion_sort_values (df_filtered example_table ["North"; "East"]))
  = [2; 5; 9; 0; 3].
Proof.
  repeat split; vm_compute; reflexivity.
Qed.

(** The KPIs of the whole example table. *)
Example kpis_of_example_table :
  total_sales sum_left example_table = 30950%float /\
  total_salesmen example_table = 9 /\
  target_achieved_count example_table = 3.
Proof.
  repeat split; vm_compute; reflexivity.
Qed.

(* ================================================================== *)
(** ** More on the load (lines 18-47) *)

Lemma filter_length_two {A : Type} (p : A -> bool) (l1 l2 l3 : list A) (x y : A) :
  p x = true -> p y = true ->
  2 <= List.length (filter p (l1 ++ x :: l2 ++ y :: l3)).
Proof.
  intros Hx Hy. rewrite filter_app. cbn [filter]. rewrite Hx, filter_app.
  cbn [filter]. rewrite Hy. rewrite length_app. cbn [List.length].
  rewrite length_app. cbn [List.length]. lia.
Qed.

Lemma in_two_split {A : Type} (l : list A) (x y : A) :
  In x l -> In y l -> x <> y ->
  exists l1 l2 l3,
    l = l1 ++ x :: l2 ++ y :: l3 \/ l = l1 ++ y :: l2 ++ x :: l3.
Proof.
  intros Hx Hy N. apply in_split in Hx. destruct Hx as (a & b & ->).
  apply in_app_or in Hy. destruct Hy as [Hy | [Hy | Hy]].
  - apply in_split in Hy. destruct Hy as (c & d & ->).
    exists c, d, b. right. now rewrite <- app_assoc.
  - now elim N.
  - apply in_split in Hy. destruct Hy as (c & d & ->).
    exists a, c, d. now left.
Qed.

(** Two columns that the mapper sends to one label make [df[col]] a frame of
    at least two columns. *)
Lemma rename_clash (df : DataFrame) (a b col : string) :
  In a (columns df) -> In b (columns df) -> a <> b ->
  rename_label column_names a = col -> rename_label column_names b = col ->
  2 <= List.length (getitem col (rename column_names df)).
Proof.
  unfold columns. intros Ha Hb N Ra Rb.
  apply in_map_iff in Ha. destruct Ha as (x & Ex & Hx).
  apply in_map_iff in Hb. destruct Hb as (y & Ey & Hy).
  assert (Nxy : x <> y) by (intros E; apply N; now rewrite <- Ex, <- Ey, E).
  unfold getitem, rename. cbn [data]. rewrite length_map.
  set (g := fun c : string * Series => (rename_label column_names (fst c), snd c)).
  assert (Px : String.eqb (fst (g x)) col = true)
    by (unfold g; cbn [fst]; rewrite Ex, Ra; apply String.eqb_refl).
  assert (Py : String.eqb (fst (g y)) col = true)
    by (unfold g; cbn [fst]; rewrite Ey, Rb; apply String.eqb_refl).
  destruct (in_two_split _ x y Hx Hy Nxy) as (l1 & l2 & l3 & [-> | ->]);
    rewrite map_app; cbn [map]; rewrite map_app; cbn [map];
    now apply filter_length_two.
Qed.

Section LoadDataMore.

Variable float_of_str : string -> option float.

(** A pass of the loop leaves its column settled: absent, or one column that
    is not text. *)
Lemma convert_pct_settles (col : string) (df df' : DataFrame) :
  convert_pct float_of_str col df = Ok df' ->
  getitem col df' = [] \/
  exists s, getitem col df' = [s] /\ dtype_of s <> object.
Proof.
  unfold convert_pct. destruct (has_column col df) eqn:Hc.
  - destruct (getitem col df) as [| s [| s' l]] eqn:G.
    + intros H. discriminate H.
    + destruct s as [cells | xs | zs | bs];
        try (intros H; inversion H; subst; right; eexists; split;
             [ exact G | discriminate ]).
      destruct (astype_float float_of_str (Series_str_replace "%" "" cells));
        cbn [bind]; [ | discriminate ].
      intros H. inversion H; subst. right. eexists. split.
      * rewrite getitem_setitem_same, G. reflexivity.
      * discriminate.
    + destruct s; intros H; discriminate H.
  - intros H. inversion H; subst. left. now apply has_column_false.
Qed.

(** On a settled column a pass changes nothing. *)
Lemma convert_pct_settled (col : string) (df : DataFrame) :
  getitem col df = [] \/ (exists s, getitem col df = [s] /\ dtype_of s <> object) ->
  convert_pct float_of_str col df = Ok df.
Proof.
  unfold convert_pct. intros H. destruct (has_column col df) eqn:Hc; [ | reflexivity ].
  apply has_column_true in Hc. destruct H as [E | (s & E & N)].
  - contradiction.
  - rewrite E. destruct s; [ now elim N | | | ]; reflexivity.
Qed.

Lemma load_data_steps (df df' : DataFrame) :
  snd (load_data float_of_str (Ok df)) = Ok df' ->
  exists df1,
    convert_pct float_of_str "Target_Hit_Pct" (rename column_names df) = Ok df1 /\
    convert_pct float_of_str "Away_From_Target_Pct" df1 = Ok df'.
Proof.
  cbn [load_data snd pct_columns convert_all].
  destruct (convert_pct float_of_str "Target_Hit_Pct" (rename column_names df))
    as [df1 | e] eqn:P1; cbn [bind]; [ | discriminate ].
  destruct (convert_pct float_of_str "Away_From_Target_Pct" df1)
    as [df2 | e] eqn:P2; cbn [bind]; [ | discriminate ].
  intros H. inversion H; subst. now exists df1.
Qed.

Lemma rename_renamed (df df' : DataFrame) :
  columns df' = map (rename_label column_names) (columns df) ->
  rename column_names df' = df'.
Proof.
  intros C. destruct df' as [idx dat]. unfold rename. cbn [index data]. f_equal.
  unfold columns in C. cbn [data] in C.
  rewrite <- (map_id dat) at 2. apply map_ext_in. intros [l s] I. cbn [fst snd].
  f_equal. assert (Il : In l (map fst dat)) by (apply in_map_iff; now exists (l, s)).
  rewrite C in Il. apply in_map_iff in Il. destruct Il as (l0 & <- & _).
  apply rename_label_idempotent.
Qed.

(** Loading is idempotent: a table that [load_data] returned is returned
    unchanged, with no message, when it is loaded again; nothing is renamed
    or divided by 100 a second time. *)
Theorem load_data_idempotent (df df' : DataFrame) :
  snd (load_data float_of_str (Ok df)) = Ok df' ->
  load_data float_of_str (Ok df') = ([], Ok df').
Proof.
  intros L. destruct (load_data_steps df df' L) as (df1 & P1 & P2).
  pose proof (convert_pct_pass _ _ _ _ P1) as (_ & C1 & _).
  pose proof (convert_pct_pass _ _ _ _ P2) as (_ & C2 & _ & O2 & _).
  destruct (rename_data column_names df) as (RC & _).
  cbn [load_data pct_columns convert_all].
  rewrite (rename_renamed df df') by (now rewrite C2, C1).
  rewrite convert_pct_settled.
  - cbn [bind]. rewrite convert_pct_settled; [ reflexivity | ].
    eapply convert_pct_settles, P2.
  - rewrite O2 by discriminate. eapply convert_pct_settles, P1.
Qed.

(** The load touches the two percentage columns only: in the table it
    returns, the columns under every other label are the very Series the
    source holds under that label after renaming. *)
Theorem load_data_other_columns (df df' : DataFrame) (col : string) :
  snd (load_data float_of_str (Ok df)) = Ok df' ->
  ~ In col pct_columns ->
  getitem col df' = getitem col (rename column_names df).
Proof.
  intros L N. apply load_data_passes in L. destruct L as (df1 & P1 & P2).
  destruct P1 as (_ & _ & _ & O1 & _). destruct P2 as (_ & _ & _ & O2 & _).
  cbn [pct_columns In] in N.
  rewrite O2, O1; [ reflexivity | | ]; intros E; apply N; auto.
Qed.




Lemma convert_pct_clash (col : string) (df : DataFrame) :
  2 <= List.length (getitem col df) ->
  convert_pct float_of_str col df = Raise AttributeError.
Proof.
  unfold convert_pct. intros H. destruct (has_column col df) eqn:Hc.
  - destruct (getitem col df) as [| s [| s' l]]; cbn in H; try lia.
    now destruct s.
  - apply has_column_false in Hc. rewrite Hc in H. cbn in H. lia.
Qed.

(** A source that carries a percentage column under both its spaced header
    and its normalized label never loads: renaming makes the two columns
    share the label, and the load raises, with [AttributeError] when the
    label is ['Target_Hit_Pct']. *)
Theorem duplicate_percentage_header_never_loads
  (df : DataFrame) (spaced col : string) :
  In (spaced, col)
    [ ("Target Hit %", "Target_Hit_Pct");
      ("Away From Target %", "Away_From_Target_Pct") ] ->
  In spaced (columns df) -> In col (columns df) ->
  exists e,
    load_data float_of_str (Ok df) = ([], Raise e) /\
    (col = "Target_Hit_Pct" -> e = AttributeError).
Proof.
  intros P Hs Hc.
  assert (K : 2 <= List.length (getitem col (rename column_names df))).
  { destruct P as [E | [E | []]]; inversion E; subst;
      (eapply rename_clash; [ exact Hs | exact Hc | discriminate | | ]; reflexivity). }
  cbn [load_data pct_columns convert_all].
  destruct P as [E | [E | []]]; inversion E; subst.
  - rewrite (convert_pct_clash _ _ K). cbn [bind]. now exists AttributeError.
  - destruct (convert_pct float_of_str "Target_Hit_Pct" (rename column_names df))
      as [df1 | e1] eqn:P1; cbn [bind].
    + apply convert_pct_pass in P1. destruct P1 as (_ & _ & _ & O1 & _).
      rewrite <- (O1 "Away_From_Target_Pct") in K by discriminate.
      rewrite (convert_pct_clash _ _ K). cbn [bind].
      exists AttributeError. split; [ reflexivity | discriminate ].
    + exists e1. split; [ reflexivity | discriminate ].
Qed.

(** A source that was read reaches the dashboard exactly when it loads and
    has at least one row and one column; an empty source that loads stops
    the run without any message, and a source that does not load ends the
    run on the exception. *)
Theorem script_on_read_source (df : DataFrame) :
  script float_of_str (Ok df) =
  match snd (load_data float_of_str (Ok df)) with
  | Ok df' => if empty df then Stopped [] else Dashboard [] df'
  | Raise e => Crashed e
  end.
Proof.
  unfold script. cbn [load_data snd].
  destruct (convert_all float_of_str pct_columns (rename column_names df))
    as [df' | e] eqn:L; [ | reflexivity ].
  assert (L' : snd (load_data float_of_str (Ok df)) = Ok df') by exact L.
  apply load_data_passes in L'. destruct L' as (df1 & P1 & P2).
  destruct P1 as (I1 & C1 & _). destruct P2 as (I2 & C2 & _).
  destruct (rename_data column_names df) as (RC & _ & RI).
  assert (E : empty df' = empty df).
  { unfold empty, len. rewrite I2, I1, RI, C2, C1, RC, length_map. reflexivity. }
  now rewrite E.
Qed.

End LoadDataMore.

(* ================================================================== *)
(** ** The region selector (line 54) *)

Lemma cell_eqb_eq (a b : option string) : cell_eqb a b = true <-> a = b.
Proof.
  destruct a as [x |], b as [y |]; cbn [cell_eqb];
    try (split; [ discriminate | discriminate ]); [ | tauto ].
  rewrite String.eqb_eq. split; congruence.
Qed.

Lemma cell_eqb_neq (a b : option string) : cell_eqb a b = false <-> a <> b.
Proof.
  rewrite <- cell_eqb_eq. destruct (cell_eqb a b); split; congruence.
Qed.

Lemma unique_In (cells : list (option string)) (c : option string) :
  In c (unique cells) <-> In c cells.
Proof.
  induction cells as [| d rest IH]; cbn [unique In]; [ tauto | ].
  rewrite filter_In, IH, negb_true_iff, cell_eqb_neq.
  destruct (cell_eqb d c) eqn:E.
  - apply cell_eqb_eq in E. tauto.
  - apply cell_eqb_neq in E. tauto.
Qed.

Lemma unique_NoDup (cells : list (option string)) : NoDup (unique cells).
Proof.
  induction cells as [| d rest IH]; cbn [unique]; constructor.
  - rewrite filter_In, negb_true_iff, cell_eqb_neq. tauto.
  - now apply NoDup_filter.
Qed.

Lemma dropna_NoDup (cells : list (option string)) :
  NoDup cells -> NoDup (dropna cells).
Proof.
  induction 1 as [| [s |] rest N _ IH]; cbn [dropna].
  - constructor.
  - constructor; [ now rewrite dropna_In | exact IH ].
  - exact IH.
Qed.

Lemma str_leb_le (a b : string) :
  String.leb a b = true <-> a = b \/ OrderedTypeEx.String_as_OT.lt a b.
Proof.
  unfold String.leb. rewrite <- OrderedTypeEx.String_as_OT.cmp_lt, <- OrderedTypeEx.String_as_OT.cmp_eq.
  unfold OrderedTypeEx.String_as_OT.cmp. destruct (String.compare a b); split;
    intuition discriminate.
Qed.

Lemma str_leb_trans (a b c : string) :
  String.leb a b = true -> String.leb b c = true -> String.leb a c = true.
Proof.
  rewrite !str_leb_le. intros [-> | H1] [-> | H2]; auto.
  right. eapply OrderedTypeEx.String_as_OT.lt_trans; eassumption.
Qed.

Lemma str_ltb_leb (a b : string) :
  String.ltb a b = true <-> String.leb a b = true /\ a <> b.
Proof.
  unfold String.ltb, String.leb. destruct (String.compare a b) eqn:C.
  - apply String.compare_eq_iff in C. split; [ discriminate | tauto ].
  - split; [ intros _ | reflexivity ]. split; [ reflexivity | ].
    intros ->. assert (E : String.compare b b = Eq) by now apply OrderedTypeEx.String_as_OT.cmp_eq.
    congruence.
  - split; [ discriminate | intros [H _]; discriminate H ].
Qed.

Lemma insert_str_Permutation (s : string) (l : list string) :
  Permutation (s :: l) (insert_str s l).
Proof.
  induction l as [| x l IH]; cbn [insert_str]; [ apply Permutation_refl | ].
  destruct (String.leb s x); [ apply Permutation_refl | ].
  eapply Permutation_trans; [ apply perm_swap | now apply perm_skip ].
Qed.

Lemma sorted_str_Permutation (l : list string) : Permutation l (sorted_str l).
Proof.
  unfold sorted_str. induction l as [| s l IH]; cbn [fold_right]; [ constructor | ].
  eapply Permutation_trans; [ apply perm_skip, IH | apply insert_str_Permutation ].
Qed.

Lemma sorted_str_In (l : list string) (s : string) :
  In s (sorted_str l) <-> In s l.
Proof.
  split; apply Permutation_in;
    [ apply Permutation_sym | ]; apply sorted_str_Permutation.
Qed.

Lemma insert_str_sorted (s : string) (l : list string) :
  StronglySorted (fun a b => String.leb a b = true) l ->
  StronglySorted (fun a b => String.leb a b = true) (insert_str s l).
Proof.
  induction 1 as [| x l S IH F]; cbn [insert_str]; [ repeat constructor | ].
  destruct (String.leb s x) eqn:T.
  - constructor; [ now constructor | ]. constructor; [ exact T | ].
    eapply Forall_impl; [ | exact F ]. intros y. now apply str_leb_trans.
  - constructor; [ exact IH | ].
    eapply Permutation_Forall; [ apply insert_str_Permutation | ].
    constructor; [ | exact F ].
    destruct (String.leb_total s x) as [H | H]; congruence.
Qed.

(** [sorted] returns distinct strings in strictly ascending order. *)
Lemma sorted_str_ascending (l : list string) :
  NoDup l -> StronglySorted (fun a b => String.ltb a b = true) (sorted_str l).
Proof.
  intros N.
  assert (S : StronglySorted (fun a b => String.leb a b = true) (sorted_str l)).
  { unfold sorted_str. induction l as [| s l IH]; cbn [fold_right];
      [ constructor | ].
    apply insert_str_sorted, IH. now inversion N. }
  assert (N' : NoDup (sorted_str l))
    by (eapply Permutation_NoDup; [ apply sorted_str_Permutation | exact N ]).
  induction S as [| x m S IH F]; constructor.
  - apply IH. now inversion N'.
  - inversion N' as [| x' m' Hx _]; subst. rewrite Forall_forall in *.
    intros y Hy. apply str_ltb_leb. split; [ now apply F | ].
    intros ->. contradiction.
Qed.

Lemma sorted_None (cells : list (option string)) :
  sorted cells = None <-> In None cells /\ 2 <= List.length cells.
Proof.
  unfold sorted.
  destruct (forallb (fun c => match c with Some _ => true | None => false end) cells)
    eqn:F.
  - split; [ discriminate | ]. intros [I _]. rewrite forallb_forall in F.
    specialize (F None I). discriminate.
  - assert (I : In None cells).
    { clear -F. induction cells as [| [s |] rest IH]; cbn in F;
        [ discriminate | right; now apply IH | now left ]. }
    destruct (List.length cells <=? 1)%nat eqn:L.
    + apply Nat.leb_le in L. split; [ discriminate | intros [_ H]; lia ].
    + apply Nat.leb_gt in L. split; [ intros _; split; [ exact I | lia ] | reflexivity ].
Qed.

(** The error of line 54.  The options cannot be computed, the script ending
    on [TypeError], exactly when some row of the table has no region while
    another row has one. *)
Theorem all_states_raises (df : Table) :
  all_states df = None <->
  (exists r, In r df /\ Region r = None) /\
  (exists r region, In r df /\ Region r = Some region).
Proof.
  unfold all_states.
  destruct (sorted (unique (map Region df))) as [l |] eqn:S; cbn [option_map].
  - split; [ discriminate | ]. intros [(r & I & E) (r' & k & I' & E')].
    exfalso.
    assert (K : sorted (unique (map Region df)) = None); [ | congruence ].
    apply sorted_None. split.
    + apply unique_In, in_map_iff. now exists r.
    + assert (I1 : In None (unique (map Region df)))
        by (apply unique_In, in_map_iff; now exists r).
      assert (I2 : In (Some k) (unique (map Region df)))
        by (apply unique_In, in_map_iff; now exists r').
      destruct (unique (map Region df)) as [| a [| b m]]; cbn [List.length];
        [ destruct I1 | | lia ].
      destruct I1 as [E1 | []]. destruct I2 as [E2 | []]. congruence.
  - split; [ intros _ | reflexivity ]. apply sorted_None in S.
    destruct S as [I L]. split.
    + apply unique_In, in_map_iff in I. destruct I as (r & E & I). now exists r.
    + pose proof (unique_NoDup (map Region df)) as N.
      destruct (unique (map Region df)) as [| a [| b m]] eqn:U;
        cbn [List.length] in L; try lia.
      assert (Hab : a <> b).
      { inversion N as [| ? ? Ha _]; subst. intros ->. apply Ha. now left. }
      assert (K : exists k, In (Some k) (unique (map Region df))).
      { rewrite U. destruct a as [k |]; [ exists k; now left | ].
        destruct b as [k |]; [ exists k; right; now left | now elim Hab ]. }
      destruct K as (k & K). apply unique_In, in_map_iff in K.
      destruct K as (r & E & Ir). now exists r, k.
Qed.

(** The options of line 54.  On a table in which every row has a region, the
    selector offers the sentinel first and then every region found in the
    table, each once, in strictly ascending order. *)
Theorem all_states_lists_regions (df : Table) :
  (forall r, In r df -> Region r <> None) ->
  exists regions,
    all_states df = Some (Some All_Regions :: map Some regions) /\
    StronglySorted (fun a b => String.ltb a b = true) regions /\
    (forall region,
        In region regions <-> exists r, In r df /\ Region r = Some region).
Proof.
  intros H. exists (sorted_str (dropna (unique (map Region df)))).
  split; [ | split ].
  - unfold all_states, sorted.
    assert (F : forallb (fun c => match c with Some _ => true | None => false end)
                  (unique (map Region df)) = true).
    { apply forallb_forall. intros [s |] I; [ reflexivity | ].
      apply unique_In, in_map_iff in I. destruct I as (r & E & I).
      now elim (H r I). }
    now rewrite F.
  - apply sorted_str_ascending, dropna_NoDup, unique_NoDup.
  - intros k. rewrite sorted_str_In, dropna_In, unique_In, in_map_iff.
    split; intros (r & A & B); now exists r.
Qed.

(** No option is dead: every region the selector offers, picked alone,
    selects at least one row; and unless it is spelled like the sentinel, it
    selects exactly the rows of that region. *)
Theorem offered_region_selects_rows
  (df : Table) (options : list (option string)) (region : string) :
  all_states df = Some options ->
  In (Some region) (List.tl options) ->
  df_filtered df [region] <> [] /\
  (region <> All_Regions ->
   df_filtered df [region]
   = where_ (fun r => cell_eqb (Region r) (Some region)) df).
Proof.
  unfold all_states. intros A I.
  destruct (sorted (unique (map Region df))) as [l |] eqn:S; [ | discriminate ].
  cbn [option_map] in A. inversion A; subst. cbn [List.tl] in I.
  assert (K : exists r, In r df /\ Region r = Some region).
  { unfold sorted in S.
    destruct (forallb _ (unique (map Region df))).
    - inversion S; subst. apply in_map_iff in I. destruct I as (k & E & I).
      inversion E; subst. apply sorted_str_In, dropna_In, unique_In, in_map_iff in I.
      destruct I as (r & E' & I). now exists r.
    - destruct (List.length (unique (map Region df)) <=? 1)%nat; [ | discriminate ].
      inversion S; subst. apply unique_In, in_map_iff in I.
      destruct I as (r & E' & I). now exists r. }
  destruct K as (r & Ir & Er). split.
  - intros E.
    assert (J : In r (df_filtered df [region])); [ | rewrite E in J; destruct J ].
    unfold df_filtered. destruct (negb (contains All_Regions [region])); [ | exact Ir ].
    unfold where_. apply filter_In. split; [ exact Ir | ].
    rewrite Er. cbn [isin contains existsb]. now rewrite String.eqb_refl.
  - intros N. unfold df_filtered. cbn [contains existsb].
    assert (F : String.eqb All_Regions region = false)
      by (apply String.eqb_neq; congruence).
    rewrite F. cbn [orb negb]. unfold where_. apply filter_ext.
    intros x. destruct (Region x) as [s |]; cbn [isin contains existsb cell_eqb];
      [ now rewrite orb_false_r | reflexivity ].
Qed.

(** The view depends on which regions are picked, not on the order or the
    number of times they were picked; and picking more regions never removes
    a row from it. *)
Theorem df_filtered_grows_with_selection
  (df : Table) (selected_states selected_states' : list string) :
  incl selected_states selected_states' ->
  (forall r,
      In r (df_filtered df selected_states) ->
      In r (df_filtered df selected_states')) /\
  (incl selected_states' selected_states ->
   df_filtered df selected_states = df_filtered df selected_states').
Proof.
  intros I.
  assert (P : forall a b r, incl a b ->
                region_predicate a r = true -> region_predicate b r = true).
  { intros a b r Hab. unfold region_predicate.
    rewrite !orb_true_iff, !contains_In, !isin_In.
    intros [H | (s & E & H)]; [ left; now apply Hab | right ].
    exists s. split; [ exact E | now apply Hab ]. }
  split.
  - intros r. rewrite !df_filtered_where. unfold where_. rewrite !filter_In.
    intros [Ir Hr]. split; [ exact Ir | now apply (P selected_states) ].
  - intros I'. rewrite !df_filtered_where. unfold where_. apply filter_ext.
    intros r. destruct (region_predicate selected_states r) eqn:E.
    + symmetry. now apply (P selected_states).
    + destruct (region_predicate selected_states' r) eqn:E'; [ | reflexivity ].
      apply (P _ _ r I') in E'. congruence.
Qed.

(* ================================================================== *)
(** ** Ranking, support list and KPIs together (lines 89-120, 163-179) *)

Lemma SFltb_lex (f1 f2 : spec_float) :
  f1 <> S754_nan -> f2 <> S754_nan ->
  (SFltb f1 f2 = true <-> ~ lex_le (sf_key f2) (sf_key f1)).
Proof.
  intros N1 N2. unfold SFltb.
  destruct f1 as [s1 | s1 | | s1 m1 e1]; [ | | congruence | ];
    (destruct f2 as [s2 | s2 | | s2 m2 e2]; [ | | congruence | ]);
    destruct s1, s2; cbn [SFcompare sf_key lex_le];
    try (split; [ intros _; lia | reflexivity ]);
    try (split; [ discriminate | intros H; exfalso; lia ]).
  - fold (Pos.compare m1 m2).
    destruct (Z.compare_spec e1 e2); cbn [CompOpp];
      try (split; [ intros _; lia | reflexivity ]);
      try (split; [ discriminate | intros H'; exfalso; lia ]).
    destruct (Pos.compare_spec m1 m2); cbn [CompOpp];
      try (split; [ intros _; lia | reflexivity ]);
      try (split; [ discriminate | intros H'; exfalso; lia ]).
  - fold (Pos.compare m1 m2).
    destruct (Z.compare_spec e1 e2);
      try (split; [ intros _; lia | reflexivity ]);
      try (split; [ discriminate | intros H'; exfalso; lia ]).
    destruct (Pos.compare_spec m1 m2);
      try (split; [ intros _; lia | reflexivity ]);
      try (split; [ discriminate | intros H'; exfalso; lia ]).
Qed.

(** A float strictly below [t] is not at or above anything that [t] does
    not exceed. *)
Lemma ltb_leb_excludes (x t u : float) :
  (x <? t)%float = true -> (t <=? u)%float = true -> (u <=? x)%float = false.
Proof.
  intros Hxt Htu. destruct (u <=? x)%float eqn:Hux; [ exfalso | reflexivity ].
  destruct (leb_true_not_nan _ _ Htu) as [Nt Nu].
  destruct (leb_true_not_nan _ _ Hux) as [_ Nx].
  rewrite FloatAxioms.ltb_spec in Hxt.
  apply SFltb_lex in Hxt; try (now apply is_nan_Prim2SF).
  apply Hxt. eapply lex_le_trans.
  - apply (leb_lex t u Nt Nu), Htu.
  - apply (leb_lex u x Nu Nx), Hux.
Qed.

Lemma filter_disjoint_length {A : Type} (p q : A -> bool) (l : list A) :
  (forall x, In x l -> p x = true -> q x = false) ->
  List.length (filter p l) + List.length (filter q l) <= List.length l.
Proof.
  induction l as [| a l IH]; intros H; cbn [filter List.length]; [ lia | ].
  assert (IH' := IH (fun x Hx => H x (or_intror Hx))).
  pose proof (H a (or_introl eq_refl)) as Ha.
  destruct (p a); [ rewrite (Ha eq_refl) | destruct (q a) ];
    cbn [List.length]; lia.
Qed.

Section RankingAndSupport.

Variable sort_values : (Row -> float) -> bool -> Table -> Table.

(** Nobody is on both lists: for every threshold the slider can give (at
    most 1.0), no row of the support list is counted as meeting its target,
    so the two counts together never exceed the number of rows. *)
Theorem support_list_excludes_achievers
  (df_filtered : Table) (target_threshold : float) :
  (target_threshold <=? 1)%float = true ->
  sort_values_spec Target_Hit_Pct true
    (where_ (fun r => (Target_Hit_Pct r <? target_threshold)%float) df_filtered)
    (df_support sort_values df_filtered target_threshold) ->
  (forall r,
      In r (df_support sort_values df_filtered target_threshold) ->
      (1 <=? Target_Hit_Pct r)%float = false) /\
  target_achieved_count df_filtered
  + List.length (df_support sort_values df_filtered target_threshold)
  <= List.length df_filtered.
Proof.
  intros T (P & _). split.
  - intros r I. apply Permutation_sym in P. apply (Permutation_in _ P) in I.
    unfold where_ in I. apply filter_In in I. destruct I as [_ I].
    eapply ltb_leb_excludes; eassumption.
  - rewrite <- (Permutation_length P). unfold target_achieved_count, where_.
    rewrite Nat.add_comm. apply filter_disjoint_length.
    intros r _ I. eapply ltb_leb_excludes; eassumption.
Qed.

(** With fewer than ten rows the two ends of the ranking overlap.  With at
    most five rows, the top-5 and the bottom-5 are both the whole ranking, so
    the combined table of line 120 holds every row twice; with five to ten
    rows they share exactly the middle [10 - n] rows of the ranking.  The
    combined table always has twice [min 5 n] rows. *)
Theorem top_and_bottom_overlap (df_filtered : Table) :
  sort_values_spec Total_Sales false df_filtered
    (salesmen_rank sort_values df_filtered) ->
  let n := List.length df_filtered in
  let rank := salesmen_rank sort_values df_filtered in
  (n <= 5 ->
   top_5 sort_values df_filtered = rank /\
   bottom_5 sort_values df_filtered = rank /\
   top_bottom_df sort_values df_filtered = rank ++ rank) /\
  (5 <= n <= 10 ->
   exists first shared last,
     rank = first ++ shared ++ last /\
     top_5 sort_values df_filtered = first ++ shared /\
     bottom_5 sort_values df_filtered = shared ++ last /\
     List.length shared = 10 - n) /\
  List.length (top_bottom_df sort_values df_filtered) = 2 * Nat.min 5 n.
Proof.
  intros (P & _). cbv zeta.
  unfold top_bottom_df, top_5, bottom_5, head, tail.
  set (rank := salesmen_rank sort_values df_filtered) in *.
  assert (L : List.length rank = List.length df_filtered)
    by (symmetry; now apply Permutation_length).
  set (n := List.length df_filtered) in *.
  split; [ | split ].
  - intros H. rewrite firstn_all2 by lia.
    replace (List.length rank - 5) with 0 by lia. cbn [skipn]. auto.
  - intros H.
    exists (firstn (n - 5) rank),
           (firstn (10 - n) (skipn (n - 5) rank)),
           (skipn 5 rank).
    assert (E5 : skipn 5 rank = skipn (10 - n) (skipn (n - 5) rank))
      by (rewrite skipn_skipn; f_equal; lia).
    repeat split.
    + rewrite E5, firstn_skipn, firstn_skipn. reflexivity.
    + rewrite <- (firstn_skipn (n - 5) rank) at 1.
      rewrite firstn_app, length_firstn, firstn_firstn.
      replace (Nat.min 5 (n - 5)) with (n - 5) by lia.
      replace (5 - Nat.min (n - 5) (List.length rank)) with (10 - n) by lia.
      reflexivity.
    + rewrite L, E5. now rewrite firstn_skipn.
    + rewrite length_firstn, length_skipn. lia.
  - rewrite length_app, length_firstn, length_skipn. lia.
Qed.


End RankingAndSupport.

(* ================================================================== *)
(** ** The regional rollup and its colours (lines 140-154) *)

Lemma list_sum_cons (x : nat) (l : list nat) :
  list_sum (x :: l) = x + list_sum l.
Proof. reflexivity. Qed.

Lemma groups_count_row (keys : list string) (r : Row) :
  NoDup keys ->
  list_sum
    (map (fun k => if cell_eqb (Region r) (Some k) then 1 else 0) keys)
  = if isin keys (Region r) then 1 else 0.
Proof.
  induction 1 as [| k keys Hk N IH]; cbn [map].
  - now destruct (Region r).
  - rewrite list_sum_cons, IH.
    destruct (Region r) as [s |]; cbn [cell_eqb isin contains existsb];
      [ | reflexivity ].
    fold (contains s keys). destruct (String.eqb_spec s k) as [-> | _];
      cbn [orb]; [ | reflexivity ].
    destruct (contains k keys) eqn:C; [ | reflexivity ].
    apply contains_In in C. contradiction.
Qed.

Lemma groups_count (keys : list string) (df : Table) :
  NoDup keys ->
  list_sum
    (map (fun k =>
            List.length (where_ (fun r => cell_eqb (Region r) (Some k)) df))
       keys)
  = count_rows (fun r => isin keys (Region r)) df.
Proof.
  intros N. unfold where_. induction df as [| r df IH]; cbn [filter count_rows].
  - clear N. induction keys as [| k keys IHk]; cbn [map]; [ reflexivity | ].
    now rewrite list_sum_cons, IHk.
  - rewrite <- IH, <- (groups_count_row keys r N). clear IH N.
    induction keys as [| k keys IHk]; cbn [map]; [ reflexivity | ].
    rewrite !list_sum_cons, IHk.
    destruct (cell_eqb (Region r) (Some k)); cbn [List.length]; lia.
Qed.

Lemma count_rows_ext_in (p q : Row -> bool) (df : Table) :
  (forall r, In r df -> p r = q r) -> count_rows p df = count_rows q df.
Proof.
  induction df as [| r df IH]; intros H; cbn [count_rows]; [ reflexivity | ].
  rewrite (H r (or_introl eq_refl)), IH; [ reflexivity | ].
  intros x I. apply H. now right.
Qed.

Lemma strictly_ascending_NoDup (l : list string) :
  StronglySorted (fun a b => String.ltb a b = true) l -> NoDup l.
Proof.
  induction 1 as [| x l S IH F]; constructor; [ | exact IH ].
  intros I. rewrite Forall_forall in F. specialize (F x I).
  apply str_ltb_leb in F. now destruct F.
Qed.

(** The group keys: strictly ascending, and exactly the regions found. *)
Lemma groupby_Region_keys (df : Table) :
  StronglySorted (fun a b => String.ltb a b = true)
    (sorted_str (dropna (unique (map Region df)))) /\
  (forall region,
      In region (sorted_str (dropna (unique (map Region df)))) <->
      exists r, In r df /\ Region r = Some region).
Proof.
  split.
  - apply sorted_str_ascending, dropna_NoDup, unique_NoDup.
  - intros k. rewrite sorted_str_In, dropna_In, unique_In, in_map_iff.
    split; intros (r & A & B); now exists r.
Qed.

Lemma where_region_In (df : Table) (region : string) (r : Row) :
  In r (where_ (fun r => cell_eqb (Region r) (Some region)) df) <->
  In r df /\ Region r = Some region.
Proof. unfold where_. now rewrite filter_In, cell_eqb_eq. Qed.

(** [df.groupby('Region')] partitions the rows that have a region: the
    groups come in strictly ascending order of their region, one per region
    found in the table; each group is the rows of its region, in table order,
    and is not empty; the group sizes add up to the number of rows that have
    a region, a row without one being in no group. *)
Theorem groupby_Region_partitions (df : Table) :
  StronglySorted (fun a b => String.ltb a b = true) (map fst (groupby_Region df)) /\
  (forall region,
      In region (map fst (groupby_Region df)) <->
      exists r, In r df /\ Region r = Some region) /\
  (forall region rows,
      In (region, rows) (groupby_Region df) ->
      rows <> [] /\
      rows = where_ (fun r => cell_eqb (Region r) (Some region)) df /\
      forall r, In r rows <-> In r df /\ Region r = Some region) /\
  list_sum (map (fun g => List.length (snd g)) (groupby_Region df))
  = count_rows
      (fun r => match Region r with Some _ => true | None => false end) df.
Proof.
  destruct (groupby_Region_keys df) as (S & K). unfold groupby_Region.
  set (keys := sorted_str (dropna (unique (map Region df)))) in *.
  rewrite !map_map. cbn [fst snd]. rewrite map_id.
  split; [ exact S | ]. split; [ exact K | ]. split.
  - intros k rows I. apply in_map_iff in I. destruct I as (k' & E & I).
    inversion E; subst. split; [ | split; [ reflexivity | apply where_region_In ] ].
    apply K in I. destruct I as (r & I & Er). intros E0.
    assert (J : In r (where_ (fun r => cell_eqb (Region r) (Some k)) df))
      by (now apply where_region_In).
    rewrite E0 in J. destruct J.
  - rewrite (groups_count keys df (strictly_ascending_NoDup keys S)).
    apply count_rows_ext_in. intros r I.
    destruct (Region r) as [s |] eqn:E; cbn [isin]; [ | reflexivity ].
    apply contains_In, K. now exists r.
Qed.

Lemma insert_key_Permutation {A : Type} (key : A -> float) (ascending : bool)
  (r : A) (l : list A) :
  Permutation (r :: l) (insert_key key ascending r l).
Proof.
  induction l as [| x l IH]; cbn [insert_key]; [ apply Permutation_refl | ].
  destruct (if ascending then (key r <=? key x)%float else (key x <=? key r)%float);
    [ apply Permutation_refl | ].
  eapply Permutation_trans; [ apply perm_swap | now apply perm_skip ].
Qed.

Lemma insert_key_sorted {A : Type} (key : A -> float) (ascending : bool)
  (r : A) (l : list A) :
  is_nan (key r) = false ->
  Forall (fun x => is_nan (key x) = false) l ->
  StronglySorted (fun a b => in_order ascending (key a) (key b)) l ->
  StronglySorted (fun a b => in_order ascending (key a) (key b))
    (insert_key key ascending r l).
Proof.
  intros Nr Nl S. induction S as [| x l S IH F]; cbn [insert_key].
  - repeat constructor.
  - inversion Nl as [| x' l' Nx Nl']; subst.
    destruct (if ascending then (key r <=? key x)%float else (key x <=? key r)%float)
      eqn:T.
    + constructor; [ now constructor | ].
      assert (Rrx : in_order ascending (key r) (key x)) by (now destruct ascending).
      constructor; [ exact Rrx | ].
      eapply Forall_impl; [ | exact F ]. intros y Rxy.
      eapply in_order_trans; eassumption.
    + constructor; [ now apply IH | ].
      eapply Permutation_Forall; [ apply insert_key_Permutation | ].
      constructor; [ | exact F ].
      now apply in_order_total.
Qed.

(** The insertion sort keeps the promise of [sort_values] on rows of any
    kind. *)
Lemma insertion_sort_key_promise {A : Type} (key : A -> float) (ascending : bool)
  (l : list A) :
  sort_promise key ascending l (insertion_sort_key key ascending l).
Proof.
  unfold insertion_sort_key. split.
  - apply Permutation_trans
      with (filter (fun r => negb (is_nan (key r))) l
            ++ filter (fun r => is_nan (key r)) l).
    + induction l as [| a l IH]; cbn [filter]; [ constructor | ].
      destruct (is_nan (key a)); cbn [negb app].
      * now apply Permutation_cons_app.
      * now apply perm_skip.
    + apply Permutation_app_tail.
      induction (filter (fun r => negb (is_nan (key r))) l) as [| a m IH];
        cbn [fold_right]; [ constructor | ].
      eapply Permutation_trans; [ apply perm_skip, IH | apply insert_key_Permutation ].
  - exists (fold_right (insert_key key ascending) []
              (filter (fun r => negb (is_nan (key r))) l)),
           (filter (fun r => is_nan (key r)) l).
    assert (K : Forall (fun r => is_nan (key r) = false)
                  (filter (fun r => negb (is_nan (key r))) l)).
    { apply Forall_forall. intros r I. apply filter_In in I.
      now apply negb_true_iff. }
    split; [ reflexivity | ].
    induction (filter (fun r => negb (is_nan (key r))) l) as [| a m IH];
      cbn [fold_right].
    + repeat split; try constructor.
      apply Forall_forall. intros r I. now apply filter_In in I.
    + inversion K as [| a' m' Na Km]; subst.
      destruct (IH Km) as (Fp & Fm & S). repeat split.
      * eapply Permutation_Forall; [ apply insert_key_Permutation | ].
        now constructor.
      * exact Fm.
      * now apply insert_key_sorted.
Qed.

Lemma bar_color_nan (x : float) : is_nan x = true -> bar_color x = "red".
Proof.
  intros N. unfold bar_color. destruct (1 <=? x)%float eqn:L; [ | reflexivity ].
  apply leb_true_not_nan in L. destruct L as [_ L]. congruence.
Qed.

Lemma bar_color_cases (x : float) : bar_color x = "green" \/ bar_color x = "red".
Proof. unfold bar_color. destruct (1 <=? x)%float; auto. Qed.

(** In descending order of the averages, with the missing ones last, the
    rows' own colours are some greens followed by some reds. *)
Lemma descending_colors {A : Type} (key : A -> float) (l out : list A) :
  sort_promise key false l out ->
  exists g r,
    map (fun a => bar_color (key a)) out = repeat "green" g ++ repeat "red" r.
Proof.
  intros (_ & present & missing & -> & _ & Hm & S). rewrite map_app.
  assert (M : map (fun a => bar_color (key a)) missing
              = repeat "red" (List.length missing)).
  { clear S. induction Hm as [| a m Ha _ IH]; cbn [map List.length repeat];
      [ reflexivity | ].
    now rewrite IH, (bar_color_nan _ Ha). }
  rewrite M. clear M Hm.
  induction S as [| a p S IH F].
  - now exists 0, (List.length missing).
  - destruct IH as (g & r & IH). cbn [map app].
    destruct (1 <=? key a)%float eqn:L.
    + exists (Datatypes.S g), r. rewrite IH. unfold bar_color. now rewrite L.
    + exists 0, (Datatypes.S (List.length p + List.length missing)).
      cbn [repeat app]. unfold bar_color at 1. rewrite L. f_equal.
      rewrite repeat_app. f_equal.
      clear IH S. induction F as [| b q Hb _ IHq]; cbn [map List.length repeat];
        [ reflexivity | ].
      rewrite IHq. f_equal. unfold bar_color.
      destruct (1 <=? key b)%float eqn:Lb; [ | reflexivity ].
      cbn [in_order] in Hb. rewrite (leb_trans _ _ _ Lb Hb) in L. discriminate.
Qed.

Lemma greens_then_reds_unique (g r g' r' : nat) :
  Permutation (repeat "green" g ++ repeat "red" r)
              (repeat "green" g' ++ repeat "red" r') ->
  repeat "green" g ++ repeat "red" r = repeat "green" g' ++ repeat "red" r'.
Proof.
  intros P.
  assert (Cg : forall a b,
             count_occ string_dec (repeat "green" a ++ repeat "red" b) "green" = a).
  { intros a b. rewrite count_occ_app, count_occ_repeat_eq by reflexivity.
    rewrite count_occ_repeat_neq by discriminate. lia. }
  pose proof (proj1 (Permutation_count_occ string_dec _ _) P "green") as C.
  rewrite !Cg in C. subst g'.
  apply Permutation_length in P. rewrite !length_app, !repeat_length in P.
  assert (r' = r) by lia. now subst.
Qed.

Section Rollup.

Variable sort_values_agg :
  (RegionAgg.row -> float) -> bool -> list RegionAgg.row -> list RegionAgg.row.
Variable GroupBy_mean : list float -> float.
Variable GroupBy_sum : list float -> float.

(** The regional rollup has one row per region found in the view, in
    strictly ascending order of the region; the row of a region holds the
    mean ratio and the summed sales of exactly the rows of that region, of
    which there is at least one.  A view without regions gives no row. *)
Theorem region_agg_one_row_per_region (df_filtered : Table) :
  let agg := region_agg GroupBy_mean GroupBy_sum df_filtered in
  StronglySorted (fun a b => String.ltb a b = true) (map RegionAgg.Region agg) /\
  (forall region,
      In region (map RegionAgg.Region agg) <->
      exists r, In r df_filtered /\ Region r = Some region) /\
  (forall a,
      In a agg ->
      let rows :=
        where_ (fun r => cell_eqb (Region r) (Some (RegionAgg.Region a)))
          df_filtered in
      rows <> [] /\
      RegionAgg.Avg_Target_Hit a = GroupBy_mean (map Target_Hit_Pct rows) /\
      RegionAgg.Total_Sales a = GroupBy_sum (map Total_Sales rows)) /\
  ((forall r, In r df_filtered -> Region r = None) -> agg = []).
Proof.
  cbv zeta. unfold region_agg, groupby_Region.
  destruct (groupby_Region_keys df_filtered) as (S & K).
  set (keys := sorted_str (dropna (unique (map Region df_filtered)))) in *.
  rewrite !map_map. cbn [fst snd RegionAgg.Region]. rewrite map_id.
  split; [ exact S | ]. split; [ exact K | ]. split.
  - intros a I. apply in_map_iff in I. destruct I as (k & <- & I).
    cbn [RegionAgg.Region RegionAgg.Avg_Target_Hit RegionAgg.Total_Sales].
    split; [ | split; reflexivity ].
    apply K in I. destruct I as (r & I & Er). intros E0.
    assert (J : In r (where_ (fun r => cell_eqb (Region r) (Some k)) df_filtered))
      by (now apply where_region_In).
    rewrite E0 in J. destruct J.
  - intros H. destruct keys as [| k l] eqn:E; [ reflexivity | exfalso ].
    destruct (proj1 (K k)) as (r & I & Er); [ now left | ].
    rewrite (H r I) in Er. discriminate.
Qed.

(** The colours of line 154 follow the order of [region_agg], by region
    name, while the rows handed to the chart are [region_agg] sorted by
    descending average.  There are as many colours as rows; and the list of
    colours is, position by position, the list of the chart rows' own
    colours exactly when, in region-name order, no region below target
    (red) comes before a region at or above target (green). *)
Theorem marker_color_matches_chart_rows (df_filtered : Table) :
  sort_promise RegionAgg.Avg_Target_Hit false
    (region_agg GroupBy_mean GroupBy_sum df_filtered)
    (fig_region_rows sort_values_agg GroupBy_mean GroupBy_sum df_filtered) ->
  List.length (marker_color GroupBy_mean GroupBy_sum df_filtered)
  = List.length (fig_region_rows sort_values_agg GroupBy_mean GroupBy_sum df_filtered) /\
  (marker_color GroupBy_mean GroupBy_sum df_filtered
   = map (fun a => bar_color (RegionAgg.Avg_Target_Hit a))
       (fig_region_rows sort_values_agg GroupBy_mean GroupBy_sum df_filtered)
   <->
   exists g r,
     marker_color GroupBy_mean GroupBy_sum df_filtered
     = repeat "green" g ++ repeat "red" r).
Proof.
  intros H. pose proof H as (P & _).
  destruct (descending_colors _ _ _ H) as (g & r & D).
  unfold marker_color in *. rewrite map_map in *.
  set (agg := region_agg GroupBy_mean GroupBy_sum df_filtered) in *.
  set (rows := fig_region_rows sort_values_agg GroupBy_mean GroupBy_sum df_filtered) in *.
  split.
  - rewrite length_map. now apply Permutation_length.
  - split.
    + intros E. exists g, r. now rewrite E.
    + intros (g' & r' & E). rewrite E, D.
      apply greens_then_reds_unique. rewrite <- E, <- D.
      now apply Permutation_map.
Qed.

End Rollup.

(* ================================================================== *)
(** ** The salesmen count (line 91) *)

Lemma nodup_length_le (l : list string) :
  List.length (nodup string_dec l) <= List.length l.
Proof.
  induction l as [| a l IH]; cbn [nodup List.length]; [ lia | ].
  destruct (in_dec string_dec a l); cbn [List.length]; lia.
Qed.

Lemma nodup_length_eq (l : list string) :
  List.length (nodup string_dec l) = List.length l <-> NoDup l.
Proof.
  split.
  - induction l as [| a l IH]; cbn [nodup List.length]; [ constructor | ].
    pose proof (nodup_length_le l) as B.
    destruct (in_dec string_dec a l) as [I | N]; cbn [List.length]; [ lia | ].
    intros E. constructor; [ exact N | apply IH; lia ].
  - intros N. now rewrite nodup_fixed_point.
Qed.

Lemma dropna_length_le (cells : list (option string)) :
  List.length (dropna cells) <= List.length cells.
Proof.
  induction cells as [| [s |] rest IH]; cbn [dropna List.length]; lia.
Qed.

Lemma dropna_length_eq (cells : list (option string)) :
  List.length (dropna cells) = List.length cells <->
  cells = map Some (dropna cells).
Proof.
  induction cells as [| [s |] rest IH]; cbn [dropna List.length map].
  - tauto.
  - split; intros H.
    + f_equal. apply IH. lia.
    + f_equal. apply IH. injection H as H. exact H.
  - pose proof (dropna_length_le rest) as B. split; [ lia | ].
    intros E. destruct (dropna rest); discriminate E.
Qed.

Lemma map_Some_NoDup (l : list string) : NoDup l -> NoDup (map Some l).
Proof.
  induction 1 as [| a l Ha N IH]; cbn [map]; constructor; [ | exact IH ].
  intros I. apply in_map_iff in I. destruct I as (b & E & I).
  inversion E; subst. contradiction.
Qed.

(** The salesmen count never exceeds the number of rows, and equals it
    exactly when every row of the view has an [Emp_Code] and no two rows
    share one: a salesman with several rows is counted once, a row without
    a code is not counted. *)
Theorem total_salesmen_counts_codes_once (df_filtered : Table) :
  total_salesmen df_filtered <= List.length df_filtered /\
  (total_salesmen df_filtered = List.length df_filtered <->
   (forall r, In r df_filtered -> Emp_Code r <> None) /\
   NoDup (map Emp_Code df_filtered)).
Proof.
  unfold total_salesmen, nunique.
  set (cells := map Emp_Code df_filtered).
  assert (Lc : List.length cells = List.length df_filtered) by apply length_map.
  pose proof (nodup_length_le (dropna cells)) as B1.
  pose proof (dropna_length_le cells) as B2.
  split; [ lia | ]. rewrite <- Lc. split.
  - intros E.
    assert (E1 : List.length (nodup string_dec (dropna cells))
                 = List.length (dropna cells)) by lia.
    assert (E2 : List.length (dropna cells) = List.length cells) by lia.
    apply nodup_length_eq in E1. apply dropna_length_eq in E2. split.
    + intros r I Er.
      assert (J : In None cells) by (apply in_map_iff; now exists r).
      rewrite E2 in J. apply in_map_iff in J. destruct J as (s & Es & _).
      discriminate.
    + rewrite E2. now apply map_Some_NoDup.
  - intros [H N].
    assert (E2 : cells = map Some (dropna cells)).
    { apply dropna_length_eq. clear -H. unfold cells.
      induction df_filtered as [| r l IH]; cbn [map dropna List.length];
        [ reflexivity | ].
      destruct (Emp_Code r) eqn:E; [ | now elim (H r (or_introl eq_refl)) ].
      cbn [List.length]. f_equal. apply IH. intros x I. apply H. now right. }
    assert (N' : NoDup (dropna cells)) by (now apply dropna_NoDup).
    apply nodup_length_eq in N'. apply dropna_length_eq in E2. lia.
Qed.

(* ================================================================== *)
(** ** The further statements on the examples *)

(** Loading the loaded example again returns it unchanged. *)
Lemma load_data_idempotent_witness :
  load_data decimal_float (Ok example_loaded) = ([], Ok example_loaded).
Proof.
  apply (load_data_idempotent decimal_float example_source example_loaded).
  vm_compute. reflexivity.
Defined.

(** The region column of the example comes back as it was read. *)
Lemma load_data_other_columns_witness :
  getitem "Region" example_loaded = [ObjectSeries [Some "North"]].
Proof.
  rewrite (load_data_other_columns decimal_float example_source example_loaded "Region").
  - reflexivity.
  - vm_compute. reflexivity.
  - cbn [pct_columns In]. intros [H | [H | []]]; discriminate H.
Defined.


(** The source that has both ['Target Hit %'] and ['Target_Hit_Pct'] raises
    [AttributeError]. *)
Lemma duplicate_percentage_header_never_loads_witness :
  exists e,
    load_data decimal_float (Ok clash_source) = ([], Raise e) /\
    ("Target_Hit_Pct" = "Target_Hit_Pct" -> e = AttributeError).
Proof.
  apply (duplicate_percentage_header_never_loads decimal_float clash_source
           "Target Hit %" "Target_Hit_Pct").
  - left. reflexivity.
  - cbn. tauto.
  - cbn. tauto.
Defined.

(** The example table offers the sentinel and its three regions. *)
Lemma all_states_lists_regions_witness :
  exists regions,
    all_states example_table = Some (Some All_Regions :: map Some regions) /\
    StronglySorted (fun a b => String.ltb a b = true) regions /\
    (forall region,
        In region regions <->
        exists r, In r example_table /\ Region r = Some region).
Proof.
  apply (all_states_lists_regions example_table).
  apply Forall_forall. vm_compute. repeat constructor; discriminate.
Defined.

(** Picking ["North"] alone on the example table selects its four rows. *)
Lemma offered_region_selects_rows_witness :
  df_filtered example_table ["North"] <> [] /\
  ("North" <> All_Regions ->
   df_filtered example_table ["North"]
   = where_ (fun r => cell_eqb (Region r) (Some "North")) example_table).
Proof.
  apply (offered_region_selects_rows example_table
           [Some "All Regions"; Some "East"; Some "North"; Some "South"] "North").
  - vm_compute. reflexivity.
  - cbn. tauto.
Defined.

(** Picking North and then East, or East, North and East again, gives the
    same view. *)
Lemma df_filtered_grows_with_selection_witness :
  (forall r,
      In r (df_filtered example_table ["North"; "East"]) ->
      In r (df_filtered example_table ["East"; "North"; "East"])) /\
  (incl ["East"; "North"; "East"] ["North"; "East"] ->
   df_filtered example_table ["North"; "East"]
   = df_filtered example_table ["East"; "North"; "East"]).
Proof.
  apply (df_filtered_grows_with_selection example_table
           ["North"; "East"] ["East"; "North"; "East"]).
  intros s. cbn. tauto.
Defined.

(** On the example table with the default threshold 0.6, the three rows
    that meet their target and the five rows of the support list are
    different rows. *)
Lemma support_list_excludes_achievers_witness :
  (forall r,
      In r (df_support insertion_sort_values example_table 0.6) ->
      (1 <=? Target_Hit_Pct r)%float = false) /\
  target_achieved_count example_table
  + List.length (df_support insertion_sort_values example_table 0.6)
  <= List.length example_table.
Proof.
  apply (support_list_excludes_achievers insertion_sort_values example_table 0.6).
  - reflexivity.
  - unfold df_support. apply insertion_sort_values_spec.
Defined.

(** The seven rows of North and East: the top-5 and the bottom-5 share
    three rows, and the combined table has ten. *)
Lemma top_and_bottom_overlap_witness :
  exists first shared last,
    salesmen_rank insertion_sort_values (df_filtered example_table ["North"; "East"])
    = first ++ shared ++ last /\
    top_5 insertion_sort_values (df_filtered example_table ["North"; "East"])
    = first ++ shared /\
    bottom_5 insertion_sort_values (df_filtered example_table ["North"; "East"])
    = shared ++ last /\
    List.length shared = 3.
Proof.
  destruct (top_and_bottom_overlap insertion_sort_values
              (df_filtered example_table ["North"; "East"]))
    as (_ & H & _).
  - unfold salesmen_rank. apply insertion_sort_values_spec.
  - apply H. vm_compute. split; repeat constructor.
Defined.


(** East (0.5) and North (1.2): the colours are red, green in name order,
    the chart rows are North, East, and the colour list is not the chart
    rows' own. *)
Example marker_color_out_of_order :
  marker_color mean_left sum_left two_region_table = ["red"; "green"] /\
  map RegionAgg.Region
    (fig_region_rows insertion_sort_key mean_left sum_left two_region_table)
  = ["North"; "East"] /\
  map (fun a => bar_color (RegionAgg.Avg_Target_Hit a))
    (fig_region_rows insertion_sort_key mean_left sum_left two_region_table)
  = ["green"; "red"].
Proof.
  repeat split; vm_compute; reflexivity.
Qed.

(** On the example table all three regions are below target, and the
    colours are the chart rows' own. *)
Lemma marker_color_matches_chart_rows_witness :
  marker_color mean_left sum_left example_table
  = map (fun a => bar_color (RegionAgg.Avg_Target_Hit a))
      (fig_region_rows insertion_sort_key mean_left sum_left example_table).
Proof.
  destruct (marker_color_matches_chart_rows insertion_sort_key mean_left sum_left
              example_table) as (_ & _ & H).
  - unfold fig_region_rows. apply insertion_sort_key_promise.
  - apply H. exists 0, 3. vm_compute. reflexivity.
Defined.
